(** * Student management system: the record store, undo log, paging and login

    A shallow embedding of [main.py].  The SQLite database file is a record
    of its three tables, the application object ([StudentERPApp]) is a record
    of the attributes its handlers read and write, and every handler is a
    function from the state (and from what the user supplies: the form, the
    selected table row, the answer to a confirmation dialog, the clock) to
    the new state and the message box it shows.

    Text is [string], read as a sequence of characters with the code
    points 0 to 255 (ASCII and the Latin-1 supplement).  On this range the
    Python predicates on characters ([str.isspace], [str.isalpha],
    [str.isdigit], [str.lower], [int], [float]) are the ones of Python 3.11
    for these code points, and SQLite's NOCASE and LIKE fold the 26 ASCII
    capitals only.

    The database is the SQLite file as its statements leave it.  Every
    handler opens a connection of its own; when its write is refused the
    handler returns without closing it and the connection lives on, inside
    its transaction, until Python collects it.  The handlers are modelled
    on a database file no such connection holds locked.

    [build_main_ui] ends in an exception while it builds the Manage tab
    (see [no_statusbar] below), so a running application shows that tab
    only; the handlers of the other tabs are modelled as the methods they
    are. *)

From Stdlib Require Import ZArith Ascii String.
From stdpp Require Import gmap strings list sorting pretty.

Local Open Scope string_scope.
Local Open Scope Z_scope.

(** ** Characters and strings, as Python and SQLite treat them *)

Module Text.

Definition code (c : ascii) : N := N_of_ascii c.

Definition in_range (lo hi : N) (c : ascii) : bool :=
  ((lo <=? code c) && (code c <=? hi))%N.

(** [ch.isspace()]: tab, newline, vertical tab, form feed, carriage
    return, the four separators 0x1c..0x1f, the space, the next-line
    control 0x85 and the no-break space 0xa0. *)
Definition isspace (c : ascii) : bool :=
  in_range 9 13 c || in_range 28 32 c || (code c =? 133)%N || (code c =? 160)%N.

(** The 26 ASCII capitals and small letters. *)
Definition isupper (c : ascii) : bool := in_range 65 90 c.
Definition islower (c : ascii) : bool := in_range 97 122 c.

(** [ch.isalpha()]: the ASCII letters, the ordinal indicators 0xaa and
    0xba, the micro sign 0xb5, and the letters 0xc0..0xff without the
    multiplication sign 0xd7 and the division sign 0xf7. *)
Definition isalpha (c : ascii) : bool :=
  isupper c || islower c ||
  (code c =? 170)%N || (code c =? 181)%N || (code c =? 186)%N ||
  in_range 192 214 c || in_range 216 246 c || in_range 248 255 c.

(** [ch.isdecimal()], the digits [int] and [float] read, and
    [ch.isdigit()], which also holds of the superscripts two, three and
    one (0xb2, 0xb3, 0xb9). *)
Definition isdecimal_char (c : ascii) : bool := in_range 48 57 c.

Definition isdigit_char (c : ascii) : bool :=
  isdecimal_char c || (code c =? 178)%N || (code c =? 179)%N || (code c =? 185)%N.

Fixpoint all_chars (p : ascii -> bool) (s : string) : bool :=
  match s with
  | EmptyString => true
  | String c s' => p c && all_chars p s'
  end.

Fixpoint any_char (p : ascii -> bool) (s : string) : bool :=
  match s with
  | EmptyString => false
  | String c s' => p c || any_char p s'
  end.

(** Python truthiness of a string: [not s] holds of the empty string. *)
Definition nonempty (s : string) : bool :=
  match s with EmptyString => false | String _ _ => true end.

(** [s.isdigit()]: false on the empty string. *)
Definition isdigit (s : string) : bool := nonempty s && all_chars isdigit_char s.

(** [ch in " .-"] for a single character [ch]. *)
Definition in_space_dot_hyphen (c : ascii) : bool :=
  (code c =? 32)%N || (code c =? 46)%N || (code c =? 45)%N.

(** [s.strip()]: drop the white space at both ends. *)
Fixpoint lstrip (s : string) : string :=
  match s with
  | EmptyString => EmptyString
  | String c s' => if isspace c then lstrip s' else s
  end.

Fixpoint rstrip (s : string) : string :=
  match s with
  | EmptyString => EmptyString
  | String c s' =>
      match rstrip s' with
      | EmptyString => if isspace c then EmptyString else String c EmptyString
      | r => String c r
      end
  end.

Definition strip (s : string) : string := rstrip (lstrip s).

(** The number a string of decimal digits writes. *)
Definition digit_value (c : ascii) : Z := Z.of_N (code c) - 48.

Fixpoint int_digits_from (acc : Z) (s : string) : Z :=
  match s with
  | EmptyString => acc
  | String c s' => int_digits_from (10 * acc + digit_value c) s'
  end.

Definition int_of_digits (s : string) : Z := int_digits_from 0 s.

(** [int(s)] for a string [s] with [s.isdigit()]: the number it writes;
    ValueError ([None]) when a character is no decimal digit (a
    superscript) or when there are more than 4300 digits. *)
Definition int (s : string) : option Z :=
  if all_chars isdecimal_char s && (Z.of_nat (String.length s) <=? 4300)
  then Some (int_of_digits s)
  else None.

(** [ch.lower()]: the ASCII capitals and the capitals 0xc0..0xde (without
    the multiplication sign) move up by 32. *)
Definition py_lower (c : ascii) : ascii :=
  if isupper c || in_range 192 214 c || in_range 216 222 c
  then ascii_of_N (code c + 32) else c.

(** SQLite folds the 26 ASCII capitals to lower case, nothing else. *)
Definition lower (c : ascii) : ascii :=
  if isupper c then ascii_of_N (code c + 32) else c.

(** The NOCASE collating function: compare the folded characters one by
    one; when one string is a prefix of the other the shorter is first. *)
Fixpoint nocase_compare (a b : string) : comparison :=
  match a, b with
  | EmptyString, EmptyString => Eq
  | EmptyString, String _ _ => Lt
  | String _ _, EmptyString => Gt
  | String x a', String y b' =>
      match (code (lower x) ?= code (lower y))%N with
      | Eq => nocase_compare a' b'
      | o => o
      end
  end.

Definition nocase_leb (a b : string) : bool :=
  match nocase_compare a b with Gt => false | _ => true end.

Definition nocase_eqb (a b : string) : bool :=
  match nocase_compare a b with Eq => true | _ => false end.

(** [text LIKE pattern], SQLite's default: [%] matches any run of
    characters, [_] any one character, letters match regardless of ASCII
    case; there is no escape character. *)
Fixpoint like (pattern : string) : string -> bool :=
  match pattern with
  | EmptyString => fun text => negb (nonempty text)
  | String p pattern' =>
      if (code p =? 37)%N then
        fix skip (text : string) : bool :=
          like pattern' text ||
          match text with
          | EmptyString => false
          | String _ text' => skip text'
          end
      else
        fun text =>
          match text with
          | EmptyString => false
          | String t text' =>
              ((code p =? 95)%N || (code (lower p) =? code (lower t))%N)
              && like pattern' text'
          end
  end.

End Text.

(** ** The database file *)

(** A row of [students] without its primary key: the table maps the [id]
    to the other five columns. *)
Record Student := mkStudent {
  name : string;
  roll : string;
  course : string;
  marks : Z;
  created_at : string
}.

#[global] Instance Student_eq_dec : EqDecision Student.
Proof. solve_decision. Defined.

(** The fixed vocabulary of [audit_log.action]. *)
Inductive Action :=
  | a_login | a_logout | a_add | a_update | a_delete
  | a_undo_delete | a_undo_insert | a_undo_update
  | a_import | a_export_csv | a_export_excel
  | a_backup | a_restore | a_refresh_charts.

(** The dictionary [old] that [update_student] builds from the selected
    row, and the dictionary [new] it builds from the form. *)
Record OldValues := mkOld {
  old_id : Z;
  old_name : string;
  old_roll : string;
  old_course : string;
  old_marks : Z
}.

Record NewValues := mkNew {
  new_name : string;
  new_roll : string;
  new_course : string;
  new_marks : Z
}.

(** [audit_log.details]: the values each f-string of the source
    interpolates, by the call that writes them. *)
Inductive Details :=
  | d_text (s : string)
  | d_add (r n : string)
  | d_update (sid : Z) (old : OldValues) (new : NewValues)
  | d_delete (sid : Z) (r n : string)
  | d_id (sid : Z)
  | d_import (path : string) (inserted : Z).

Record AuditEntry := mkAudit {
  ts : string;
  user : option string;
  role : option string;
  action : Action;
  details : Details
}.

(** [students], the AUTOINCREMENT counter SQLite keeps for it in
    [sqlite_sequence], [audit_log] (oldest entry first) and [users]
    (username to password and role). *)
Record Db := mkDb {
  students : gmap Z Student;
  sqlite_sequence : Z;
  audit_log : list AuditEntry;
  users : gmap string (string * string)
}.

(** The Python exceptions the modelled statements raise, with the text
    [str(e)] gives. *)
Inductive Exn :=
  | IntegrityError (msg : string)
  | TypeError (msg : string)
  | ValueError (msg : string)
  | OverflowError (msg : string)
  | ZeroDivisionError (msg : string)
  | AttributeError (msg : string).

Definition exn_text (e : Exn) : string :=
  match e with
  | IntegrityError m | TypeError m | ValueError m | OverflowError m
  | ZeroDivisionError m | AttributeError m => m
  end.

Module Sql.

Definition set_students (m : gmap Z Student) (d : Db) : Db :=
  mkDb m (sqlite_sequence d) (audit_log d) (users d).

Definition has_roll (r : string) (kv : Z * Student) : Prop := roll kv.2 = r.

#[global] Instance has_roll_dec r kv : Decision (has_roll r kv).
Proof. unfold has_roll. apply _. Defined.

(** Some row of [m] carries roll [r]: what the UNIQUE constraint on
    [roll] forbids of the table a new row joins. *)
Definition roll_taken (r : string) (m : gmap Z Student) : bool :=
  bool_decide (map_Exists (fun _ s => roll s = r) m).

Definition largest_rowid (m : gmap Z Student) : Z :=
  foldr Z.max 0 (map_to_list m).*1.

(** The id AUTOINCREMENT gives a new row: one more than the largest id
    the table has ever held. *)
Definition next_id (d : Db) : Z :=
  Z.max (sqlite_sequence d) (largest_rowid (students d)) + 1.

(** [INSERT INTO students (name,roll,course,marks) VALUES (?,?,?,?)];
    [created_at] takes its default, the current time. *)
Definition insert_student (n r c : string) (mk : Z) (now : string) (d : Db)
  : Exn + Db :=
  if roll_taken r (students d)
  then inl (IntegrityError "UNIQUE constraint failed: students.roll")
  else
    let i := next_id d in
    inr (mkDb (<[i := mkStudent n r c mk now]> (students d)) i
              (audit_log d) (users d)).

(** [INSERT INTO students (id,name,roll,course,marks,created_at) VALUES
    (?,?,?,?,?,?)]: the row comes with its id. *)
Definition insert_student_with_id (i : Z) (s : Student) (d : Db) : Exn + Db :=
  if bool_decide (is_Some (students d !! i))
  then inl (IntegrityError "UNIQUE constraint failed: students.id")
  else if roll_taken (roll s) (students d)
  then inl (IntegrityError "UNIQUE constraint failed: students.roll")
  else
    inr (mkDb (<[i := s]> (students d)) (Z.max (sqlite_sequence d) i)
              (audit_log d) (users d)).

(** [UPDATE students SET name=?, roll=?, course=?, marks=? WHERE id=?]:
    no row with that id, no change and no error. *)
Definition update_student (n r c : string) (mk : Z) (i : Z) (d : Db)
  : Exn + Db :=
  match students d !! i with
  | None => inr d
  | Some old =>
      if roll_taken r (delete i (students d))
      then inl (IntegrityError "UNIQUE constraint failed: students.roll")
      else inr (set_students
                  (<[i := mkStudent n r c mk (created_at old)]> (students d)) d)
  end.

(** [SELECT * FROM students WHERE id=?] followed by [fetchone()]. *)
Definition select_by_id (i : Z) (d : Db) : option Student := students d !! i.

(** [DELETE FROM students WHERE id=?]. *)
Definition delete_by_id (i : Z) (d : Db) : Db :=
  set_students (delete i (students d)) d.

(** [DELETE FROM students WHERE roll=?]. *)
Definition delete_by_roll (r : string) (d : Db) : Db :=
  set_students (filter (fun kv => ¬ has_roll r kv) (students d)) d.

(** [SELECT COUNT( * ) FROM students]. *)
Definition count_all (d : Db) : Z := Z.of_nat (size (students d)).

(** [SELECT role FROM users WHERE username=? AND password=?]. *)
Definition select_role (u p : string) (d : Db) : option string :=
  match users d !! u with
  | Some (p', r) => if bool_decide (p' = p) then Some r else None
  | None => None
  end.

(** [LIMIT ? OFFSET ?] on an ordered result: a negative limit is no
    limit, a negative offset is none. *)
Definition limit_offset {A} (limit offset : Z) (l : list A) : list A :=
  let l' := drop (Z.to_nat offset) l in
  if limit <? 0 then l' else take (Z.to_nat limit) l'.

End Sql.

(** ** The application object *)

(** What the user has typed into the Manage form ([m_name], [m_roll],
    [m_course], [m_marks]). *)
Record Form := mkForm {
  m_name : string;
  m_roll : string;
  m_course : string;
  m_marks : string
}.

(** The values of the selected Treeview row, [tree.item(sel[0])["values"]]:
    id, name, roll, course, marks, created_at. *)
Record TreeRow := mkTreeRow {
  row_id : Z;
  row_name : string;
  row_roll : string;
  row_course : string;
  row_marks : Z;
  row_created : string
}.

(** Entries of [undo_stack], the pairs [(action, payload)]:
    [("delete", {"roll": roll})], [("update", {"id": sid, "old": old})] and
    [("insert", {"row": old})], where the row of the last carries its id. *)
Inductive UndoEntry :=
  | U_delete (r : string)
  | U_update (sid : Z) (old : OldValues)
  | U_insert (sid : Z) (row : Student).

(** Entries of [redo_stack]: [("insert", {"roll": r})],
    [("delete", {"roll": r})] and [("update_redo", {"id": i})]. *)
Inductive RedoEntry :=
  | R_insert (r : string)
  | R_delete (r : string)
  | R_update_redo (sid : Z).

(** The message boxes a handler opens, by [messagebox] function, title and
    text. *)
Inductive Message :=
  | showinfo (title text : string)
  | showwarning (title text : string)
  | showerror (title text : string).

(** The two clocks the program reads: [datetime.utcnow().isoformat()] for
    the audit log and SQLite's CURRENT_TIMESTAMP for [created_at]. *)
Record Clock := mkClock {
  utcnow : string;
  current_timestamp : string
}.

(** The attributes of [StudentERPApp] the handlers use, with the database
    file.  Both stacks have their top (the end of the Python list) at the
    head.  [lbl_page] holds the two numbers of the label "Page a / b". *)
Record App := mkApp {
  db : Db;
  current_user : option string;
  current_role : option string;
  page_size : Z;
  current_page : Z;
  total_rows : Z;
  undo_stack : list UndoEntry;
  redo_stack : list RedoEntry;
  search_text : string;
  lbl_page : Z * Z
}.

Definition set_db (d : Db) (a : App) : App :=
  mkApp d (current_user a) (current_role a) (page_size a) (current_page a)
        (total_rows a) (undo_stack a) (redo_stack a) (search_text a) (lbl_page a).

Definition set_session (u r : option string) (a : App) : App :=
  mkApp (db a) u r (page_size a) (current_page a)
        (total_rows a) (undo_stack a) (redo_stack a) (search_text a) (lbl_page a).

Definition set_current_page (p : Z) (a : App) : App :=
  mkApp (db a) (current_user a) (current_role a) (page_size a) p
        (total_rows a) (undo_stack a) (redo_stack a) (search_text a) (lbl_page a).

Definition set_total_rows (n : Z) (a : App) : App :=
  mkApp (db a) (current_user a) (current_role a) (page_size a) (current_page a)
        n (undo_stack a) (redo_stack a) (search_text a) (lbl_page a).

Definition set_undo_stack (u : list UndoEntry) (a : App) : App :=
  mkApp (db a) (current_user a) (current_role a) (page_size a) (current_page a)
        (total_rows a) u (redo_stack a) (search_text a) (lbl_page a).

Definition set_redo_stack (r : list RedoEntry) (a : App) : App :=
  mkApp (db a) (current_user a) (current_role a) (page_size a) (current_page a)
        (total_rows a) (undo_stack a) r (search_text a) (lbl_page a).

Definition set_search_text (s : string) (a : App) : App :=
  mkApp (db a) (current_user a) (current_role a) (page_size a) (current_page a)
        (total_rows a) (undo_stack a) (redo_stack a) s (lbl_page a).

Definition set_lbl_page (l : Z * Z) (a : App) : App :=
  mkApp (db a) (current_user a) (current_role a) (page_size a) (current_page a)
        (total_rows a) (undo_stack a) (redo_stack a) (search_text a) l.

(** The student table of the running application. *)
Definition table (a : App) : gmap Z Student := students (db a).

(** [init_db]: the tables exist from here on; an empty [users] table gets
    the two default accounts. *)
Definition init_db (d : Db) : Db :=
  if bool_decide (size (users d) = 0%nat)
  then mkDb (students d) (sqlite_sequence d) (audit_log d)
            (<["teacher" := ("teacher", "Teacher")]>
               (<["admin" := ("admin", "Admin")]> (users d)))
  else d.

Definition empty_db : Db := mkDb ∅ 0 [] ∅.

(** [StudentERPApp.__init__] on a database file. *)
Definition new_app (d : Db) : App :=
  mkApp d None None 50 0 0 [] [] "" (1, 1).

(** [log_audit]: one more row in [audit_log]. *)
Definition log_audit (clk : Clock) (u r : option string) (act : Action)
    (det : Details) (d : Db) : Db :=
  mkDb (students d) (sqlite_sequence d)
       (audit_log d ++ [mkAudit (utcnow clk) u r act det]) (users d).

Definition audit (clk : Clock) (act : Action) (det : Details) (a : App) : App :=
  set_db (log_audit clk (current_user a) (current_role a) act det (db a)) a.

(** ** Validation *)

(** [validate_form]: the four field checks; the result is what the method
    returns (the warning labels and button states it sets are not kept).
    The check of the marks calls [int] on a string of digits, and the
    ValueError of that call is not caught: [None]. *)
Definition name_ok (n : string) : bool :=
  Text.nonempty n &&
  negb (Text.any_char (fun ch => negb (Text.isalpha ch || Text.in_space_dot_hyphen ch)) n).

Definition roll_ok (r : string) : bool :=
  Text.nonempty r && Text.isdigit r && negb (12 <? Z.of_nat (String.length r)).

Definition course_ok (c : string) : bool := Text.nonempty c.

Definition marks_ok (m : string) : option bool :=
  if negb (Text.isdigit m) then Some false
  else v ← Text.int m; Some ((0 <=? v) && (v <=? 100)).

Definition validate_form (f : Form) : option bool :=
  let n := name_ok (Text.strip (m_name f)) in
  let r := roll_ok (Text.strip (m_roll f)) in
  let c := course_ok (Text.strip (m_course f)) in
  mk ← marks_ok (Text.strip (m_marks f));
  Some (n && r && c && mk).

(** ** Search and paging *)

(** [build_query_base]: with a non-empty search text, the rows whose roll,
    name or course is LIKE [%search%]; otherwise every row. *)
Definition matches (search : string) (kv : Z * Student) : bool :=
  let s := Text.strip search in
  if Text.nonempty s then
    let pat := "%" +:+ s +:+ "%" in
    Text.like pat (roll kv.2) || Text.like pat (name kv.2) || Text.like pat (course kv.2)
  else true.

Definition matching_rows (search : string) (m : gmap Z Student) : list (Z * Student) :=
  filter (fun kv => matches search kv = true) (map_to_list m).

(** [SELECT COUNT( * ) as c {base}]. *)
Definition count_matching (search : string) (m : gmap Z Student) : Z :=
  Z.of_nat (length (matching_rows search m)).

(** [max(1, (total_rows + page_size - 1) // page_size)], for a page size
    that is not zero. *)
Definition total_pages (total ps : Z) : Z := Z.max 1 ((total + ps - 1) / ps).

(** [ORDER BY name COLLATE NOCASE]: the statement names one sort key. *)
Definition name_le (x y : Z * Student) : Prop :=
  Text.nocase_leb (name x.2) (name y.2) = true.

#[global] Instance name_le_dec x y : Decision (name_le x y).
Proof. unfold name_le. apply _. Defined.

(** The rows of the table as a scan of [students] visits them: by
    ascending rowid. *)
Definition id_le (x y : Z * Student) : Prop := x.1 ≤ y.1.

#[global] Instance id_le_dec x y : Decision (id_le x y).
Proof. unfold id_le. apply _. Defined.

Definition rows_by_id (m : gmap Z Student) : list (Z * Student) :=
  merge_sort id_le (map_to_list m).

(** The sorter behind ORDER BY, a stable insertion: a row goes before the
    rows delivered after it whose key is not smaller, so among rows of
    equal key the order of delivery is kept. *)
Fixpoint insert_by_name (x : Z * Student) (l : list (Z * Student))
    : list (Z * Student) :=
  match l with
  | [] => [x]
  | y :: l' => if decide (name_le x y) then x :: l else y :: insert_by_name x l'
  end.

Definition order_by_name (l : list (Z * Student)) : list (Z * Student) :=
  foldr insert_by_name [] l.

(** [SELECT id,name,roll,course,marks,created_at {base} ORDER BY name
    COLLATE NOCASE]. *)
Definition sorted_rows (search : string) (m : gmap Z Student) : list (Z * Student) :=
  order_by_name (filter (fun kv => matches search kv = true) (rows_by_id m)).

(** The rows [load_page] puts into the Treeview for [page]: the same
    SELECT with [LIMIT page_size OFFSET page * page_size]. *)
Definition fetch_page (a : App) (page : Z) : list (Z * Student) :=
  Sql.limit_offset (page_size a) (Z.max 0 page * page_size a)
    (sorted_rows (search_text a) (table a)).

(** The text of the AttributeError that [self.statusbar] raises.  The
    attribute is assigned by the last lines of [build_main_ui] only, after
    [build_manage_tab] has called [load_page]; that call reads the
    attribute and raises, so the assignment is never reached and the
    attribute never exists. *)
Definition no_statusbar : string :=
  "'StudentERPApp' object has no attribute 'statusbar'".

(** [refresh_status()] without text: [total_rows] becomes the number of all
    students, and then the status bar is to get its text. *)
Definition refresh_status (a : App) : App * Exn :=
  (set_total_rows (Sql.count_all (db a)) a, AttributeError no_statusbar).

(** [load_page]: the state it leaves and the exception it raises.  With
    page size zero the division for the page label raises after
    [current_page] and [total_rows] are set; otherwise the label is
    written and [refresh_status] raises. *)
Definition load_page (page : Z) (a : App) : App * option Exn :=
  let page := Z.max 0 page in
  let a1 := set_current_page page a in
  let total := count_matching (search_text a1) (table a1) in
  let a2 := set_total_rows total a1 in
  if page_size a2 =? 0
  then (a2, Some (ZeroDivisionError "integer division or modulo by zero"))
  else
    let a3 := set_lbl_page (current_page a2 + 1,
                            total_pages (total_rows a2) (page_size a2)) a2 in
    let '(a4, e) := refresh_status a3 in
    (a4, Some e).

(** [prev_page] and [next_page]. *)
Definition prev_page (a : App) : App * option Exn :=
  if 0 <? current_page a then load_page (current_page a - 1) a else (a, None).

Definition next_page (a : App) : App * option Exn :=
  if page_size a =? 0
  then (a, Some (ZeroDivisionError "integer division or modulo by zero"))
  else if current_page a + 1 <? total_pages (total_rows a) (page_size a)
  then load_page (current_page a + 1) a
  else (a, None).

(** ** Handlers of the Manage tab

    Each returns the state it leaves and the message boxes it opened, in
    order.  The form and the selected row are what the widgets hold when the
    handler runs. *)

Definition new_of_form (f : Form) : NewValues :=
  mkNew (Text.strip (m_name f)) (Text.strip (m_roll f))
        (Text.strip (m_course f)) (Text.int_of_digits (Text.strip (m_marks f))).

Definition old_of_row (row : TreeRow) : OldValues :=
  mkOld (row_id row) (row_name row) (row_roll row) (row_course row) (row_marks row).

(** The tail every write that was carried out shares: reload the page,
    tell the user, refresh the status bar.  The exception of [load_page]
    lands in the handler's [except Exception] clause, which shows its text;
    the box telling of the write comes after [load_page] in the source. *)
Definition reload_and_report (title : string) (ok : Message) (a : App)
    : App * list Message :=
  match load_page (current_page a) a with
  | (a', None) =>
      let '(a'', e) := refresh_status a' in
      (a'', [ok; showerror title (exn_text e)])
  | (a', Some e) => (a', [showerror title (exn_text e)])
  end.

(** [add_student].  A ValueError of [validate_form] leaves the handler
    before anything is done, and no box is opened. *)
Definition add_student (clk : Clock) (f : Form) (a : App) : App * list Message :=
  match validate_form f with
  | None => (a, [])
  | Some false => (a, [showwarning "Validation" "Fix validation errors first"])
  | Some true =>
    let v := new_of_form f in
    match Sql.insert_student (new_name v) (new_roll v) (new_course v) (new_marks v)
            (current_timestamp clk) (db a) with
    | inr d =>
        let a1 := audit clk a_add (d_add (new_roll v) (new_name v)) (set_db d a) in
        let a2 := set_redo_stack [] (set_undo_stack (U_delete (new_roll v) :: undo_stack a1) a1) in
        reload_and_report "Error" (showinfo "Added" "Student added successfully") a2
    | inl (IntegrityError _) => (a, [showerror "Error" "Roll number already exists"])
    | inl e => (a, [showerror "Error" (exn_text e)])
    end
  end.

Definition update_student (clk : Clock) (sel : option TreeRow) (f : Form) (a : App)
    : App * list Message :=
  match sel with
  | None => (a, [showwarning "Select" "Select a row to update"])
  | Some row =>
      let sid := row_id row in
      let old := old_of_row row in
      match validate_form f with
      | None => (a, [])
      | Some false => (a, [showwarning "Validation" "Fix validation errors first"])
      | Some true =>
        let v := new_of_form f in
        match Sql.update_student (new_name v) (new_roll v) (new_course v) (new_marks v)
                sid (db a) with
        | inr d =>
            let a1 := audit clk a_update (d_update sid old v) (set_db d a) in
            let a2 := set_redo_stack [] (set_undo_stack (U_update sid old :: undo_stack a1) a1) in
            reload_and_report "Error" (showinfo "Updated" "Record updated") a2
        | inl (IntegrityError _) =>
            (a, [showerror "Error" "Roll conflicts with another record"])
        | inl e => (a, [showerror "Error" (exn_text e)])
        end
      end
  end.

(** [confirm] is the answer to the "Delete ...?" dialog, asked only when a
    row is selected and the role is not Guest.  [dict(cur.fetchone())] on a
    missing row raises TypeError. *)
Definition delete_student (clk : Clock) (sel : option TreeRow) (confirm : bool) (a : App)
    : App * list Message :=
  match sel with
  | None => (a, [showwarning "Select" "Select a row to delete"])
  | Some row =>
      let sid := row_id row in
      if bool_decide (current_role a = Some "Guest")
      then (a, [showwarning "Permission" "Guest cannot delete"])
      else if negb confirm then (a, [])
      else
        match Sql.select_by_id sid (db a) with
        | None =>
            (a, [showerror "Error"
                   (exn_text (TypeError "'NoneType' object is not iterable"))])
        | Some old =>
            let a1 := audit clk a_delete (d_delete sid (row_roll row) (row_name row))
                        (set_db (Sql.delete_by_id sid (db a)) a) in
            let a2 := set_redo_stack [] (set_undo_stack (U_insert sid old :: undo_stack a1) a1) in
            reload_and_report "Error" (showinfo "Deleted" "Record deleted") a2
        end
  end.

(** ** Undo and redo *)

(** The database write of one undo entry and the redo entry pushed after
    it.  The statement runs on a database no other connection holds
    locked, so the DELETE of the first case cannot fail; the INSERT and the
    UPDATE fail on a UNIQUE constraint only. *)
Definition undo_write (clk : Clock) (e : UndoEntry) (a : App) : Exn + App :=
  match e with
  | U_delete r =>
      let a1 := audit clk a_undo_delete (d_text r)
                  (set_db (Sql.delete_by_roll r (db a)) a) in
      inr (set_redo_stack (R_insert r :: redo_stack a1) a1)
  | U_insert sid row =>
      match Sql.insert_student_with_id sid row (db a) with
      | inl e => inl e
      | inr d =>
          let a1 := audit clk a_undo_insert (d_id sid) (set_db d a) in
          inr (set_redo_stack (R_delete (roll row) :: redo_stack a1) a1)
      end
  | U_update _ old =>
      match Sql.update_student (old_name old) (old_roll old) (old_course old)
              (old_marks old) (old_id old) (db a) with
      | inl e => inl e
      | inr d =>
          let a1 := audit clk a_undo_update (d_id (old_id old)) (set_db d a) in
          inr (set_redo_stack (R_update_redo (old_id old) :: redo_stack a1) a1)
      end
  end.

Definition undo_action (clk : Clock) (a : App) : App * list Message :=
  match undo_stack a with
  | [] => (a, [showinfo "Undo" "Nothing to undo"])
  | e :: rest =>
      let a0 := set_undo_stack rest a in
      match undo_write clk e a0 with
      | inl x => (a0, [showerror "Undo Error" (exn_text x)])
      | inr a1 =>
          match load_page (current_page a1) a1 with
          | (a2, None) => (a2, [showinfo "Undo" "Undo performed"])
          | (a2, Some x) => (a2, [showerror "Undo Error" (exn_text x)])
          end
      end
  end.

(** [redo_action]: pop, tell the user, reload; nothing is written to the
    database.  An exception of [load_page] is not caught here and opens no
    box. *)
Definition redo_action (a : App) : App * list Message :=
  match redo_stack a with
  | [] => (a, [showinfo "Redo" "Nothing to redo"])
  | _ :: rest =>
      let a0 := set_redo_stack rest a in
      ((load_page (current_page a0) a0).1,
       [showinfo "Redo" "Redo executed (simple placeholder)"])
  end.

(** ** Login *)

(** What [build_main_ui] does to the state: a fresh, empty search box and
    the first page loaded by [build_manage_tab].  The exception of that
    [load_page] ends [build_main_ui] there and leaves the login handler
    uncaught: the other tabs and the status bar are not built, and the
    [refresh_charts] that [build_reports_tab] would run, with its audit
    entry, is not reached. *)
Definition build_main_ui (clk : Clock) (a : App) : App :=
  match load_page 0 (set_search_text "" a) with
  | (a1, None) => audit clk a_refresh_charts (d_text "") a1
  | (a1, Some _) => a1
  end.

Definition handle_login (clk : Clock) (login_user login_pass : string) (a : App)
    : App * list Message :=
  let u := Text.strip login_user in
  let pwd := Text.strip login_pass in
  if negb (Text.nonempty u) || negb (Text.nonempty pwd)
  then (a, [showwarning "Login" "Enter username and password"])
  else
    match Sql.select_role u pwd (db a) with
    | Some r =>
        let a1 := set_session (Some u) (Some r) a in
        let a2 := audit clk a_login (d_text "successful login") a1 in
        (build_main_ui clk a2, [])
    | None => (a, [showerror "Login Failed" "Invalid credentials"])
    end.

Definition login_as_guest (clk : Clock) (a : App) : App :=
  let a1 := set_session (Some "guest") (Some "Guest") a in
  build_main_ui clk (audit clk a_login (d_text "guest login") a1).

(** ** Import *)

(** The ASCII capitals of a string folded, as LIKE and NOCASE compare. *)
Fixpoint lower_string (s : string) : string :=
  match s with
  | EmptyString => EmptyString
  | String c s' => String (Text.lower c) (lower_string s')
  end.

(** [float(s)] followed by [int(...)], for a string [s]. *)
Module Float.

(** The white space [float] drops at both ends: C's ASCII white space,
    and the white space beyond ASCII, which it first turns into a space.
    The separators 0x1c..0x1f are not among it. *)
Definition isspace (c : ascii) : bool :=
  Text.in_range 9 13 c || (Text.code c =? 32)%N ||
  (Text.code c =? 133)%N || (Text.code c =? 160)%N.

Fixpoint lstrip (s : string) : string :=
  match s with
  | EmptyString => EmptyString
  | String c s' => if isspace c then lstrip s' else s
  end.

Fixpoint rstrip (s : string) : string :=
  match s with
  | EmptyString => EmptyString
  | String c s' =>
      match rstrip s' with
      | EmptyString => if isspace c then EmptyString else String c EmptyString
      | r => String c r
      end
  end.

(** Digit separators: an underscore must stand between two decimal
    digits.  [prev] is the character before [s]. *)
Definition is_underscore (c : ascii) : bool := (Text.code c =? 95)%N.

Fixpoint underscores_ok (prev : ascii) (s : string) : bool :=
  match s with
  | EmptyString => negb (is_underscore prev)
  | String c s' =>
      (if is_underscore c then Text.isdecimal_char prev
       else negb (is_underscore prev) || Text.isdecimal_char c)
      && underscores_ok c s'
  end.

Fixpoint remove_underscores (s : string) : string :=
  match s with
  | EmptyString => EmptyString
  | String c s' =>
      if is_underscore c then remove_underscores s' else String c (remove_underscores s')
  end.

(** A run of decimal digits read onto [acc]: the number, how many digits
    were read onto the [n] before, and the rest of the string. *)
Fixpoint digits (acc : Z) (n : Z) (s : string) : Z * Z * string :=
  match s with
  | String c s' =>
      if Text.isdecimal_char c then digits (10 * acc + Text.digit_value c) (n + 1) s'
      else (acc, n, s)
  | EmptyString => (acc, n, s)
  end.

Definition sign (s : string) : bool * string :=
  match s with
  | String c s' =>
      if (Text.code c =? 45)%N then (true, s')
      else if (Text.code c =? 43)%N then (false, s')
      else (false, s)
  | EmptyString => (false, s)
  end.

(** What a literal without its sign writes: an infinity, a NaN, or the
    number [mantissa * 10 ^ exponent]. *)
Inductive Literal := Inf | Nan | Num (mantissa exponent : Z).

(** [digits [. digits] [e [sign] digits]] with a digit before or after the
    point; an [e] that no digit follows is not part of the number. *)
Definition number (s : string) : option Literal :=
  let '(ip, n1, rest) := digits 0 0 s in
  let '(m, n2, rest) :=
    match rest with
    | String c r => if (Text.code c =? 46)%N then digits ip 0 r else (ip, 0, rest)
    | EmptyString => (ip, 0, rest)
    end in
  if n1 + n2 =? 0 then None
  else
    match rest with
    | EmptyString => Some (Num m (- n2))
    | String c r =>
        if (Text.code (Text.lower c) =? 101)%N then
          let '(neg, r) := sign r in
          let '(x, n3, r) := digits 0 0 r in
          match r with
          | EmptyString =>
              if n3 =? 0 then None else Some (Num m ((if neg then - x else x) - n2))
          | String _ _ => None
          end
        else None
    end.

Definition literal (s : string) : option Literal :=
  let w := lower_string s in
  if bool_decide (w = "inf") || bool_decide (w = "infinity") then Some Inf
  else if bool_decide (w = "nan") then Some Nan
  else number s.

(** The double nearest to the positive rational [n / d], as the pair
    [(m, k)] of [m * 2 ^ k] with [m] of at most 53 bits and [k] no less
    than -1074; ties go to the even [m].  [None] when the nearest is
    beyond the largest double: the infinity. *)
Definition floor_log2 (n d : Z) : Z :=
  let e := Z.log2 n - Z.log2 d in
  if (if 0 <=? e then 2 ^ e * d <=? n else d <=? n * 2 ^ (- e)) then e else e - 1.

Definition round_half_even (n d : Z) : Z :=
  let q := n / d in
  match 2 * (n mod d) ?= d with
  | Lt => q
  | Gt => q + 1
  | Eq => if Z.even q then q else q + 1
  end.

Definition nearest_double (n d : Z) : option (Z * Z) :=
  let k := Z.max (floor_log2 n d - 52) (-1074) in
  let m := if 0 <=? k then round_half_even n (d * 2 ^ k)
           else round_half_even (n * 2 ^ (- k)) d in
  if 1024 <=? Z.log2 m + k then None else Some (m, k).

(** [int(x)] of a positive double: the fraction is cut off. *)
Definition truncate (x : Z * Z) : Z :=
  let '(m, k) := x in
  if 0 <=? k then m * 2 ^ k else m / 2 ^ (- k).

Definition int_float_str (s : string) : Exn + Z :=
  if negb (underscores_ok "000"%char s)
  then inl (ValueError "could not convert string to float")
  else
    let '(neg, body) := sign (rstrip (lstrip (remove_underscores s))) in
    match literal body with
    | None => inl (ValueError "could not convert string to float")
    | Some Inf => inl (OverflowError "cannot convert float infinity to integer")
    | Some Nan => inl (ValueError "cannot convert float NaN to integer")
    | Some (Num m e) =>
        if m =? 0 then inr 0
        else
          match (if 0 <=? e then nearest_double (m * 10 ^ e) 1
                 else nearest_double m (10 ^ (- e))) with
          | None => inl (OverflowError "cannot convert float infinity to integer")
          | Some x => inr (if neg then - truncate x else truncate x)
          end
    end.

End Float.

Module Pandas.

(** A cell of the DataFrame that [pd.read_csv(path, dtype=str)] returns:
    a string, or NaN where pandas found a missing value. *)
Inductive Cell := NaN | Str (s : string).



(** [str(x)] of a cell. *)
Definition py_str (c : Cell) : string :=
  match c with NaN => "nan" | Str s => s end.

(** The column labels, which are strings as [read_csv] gives them, and the
    rows, first row first; the rows carry the index labels 0, 1, 2, ... *)
Record DataFrame := mkFrame {
  columns : list string;
  records : list (list Cell)
}.

(** [c.lower()] for a label. *)
Fixpoint py_lower_string (s : string) : string :=
  match s with
  | EmptyString => EmptyString
  | String c s' => String (Text.py_lower c) (py_lower_string s')
  end.

(** [[c.strip().lower() for c in df.columns]]. *)
Definition normalise (cols : list string) : list string :=
  (fun c => py_lower_string (Text.strip c)) <$> cols.

Definition expected : list string := ["name"; "roll"; "course"; "marks"].

(** [expected.issubset(set(df.columns))]. *)
Definition has_expected (cols : list string) : bool :=
  forallb (fun e => bool_decide (e ∈ cols)) expected.

(** The positions of the columns that carry [label], counted from [i]. *)
Fixpoint positions (label : string) (i : nat) (cols : list string) : list nat :=
  match cols with
  | [] => []
  | c :: cols' =>
      if bool_decide (c = label) then i :: positions label (S i) cols'
      else positions label (S i) cols'
  end.

(** [r[label]]: the cell of the column that carries the label; a Series of
    the cells of all of them when several do; KeyError ([None]) when none
    does. *)
Inductive Value := Scalar (c : Cell) | Series (cs : list Cell).

Definition get (cols : list string) (r : list Cell) (label : string) : option Value :=
  match positions label 0 cols with
  | [] => None
  | [i] => Some (Scalar (default NaN (r !! i)))
  | ps => Some (Series ((fun i => default NaN (r !! i)) <$> ps))
  end.

(** [int(float(x))]: NaN has no integer, and a Series of several cells is
    no number. *)
Definition int_float (v : Value) : Exn + Z :=
  match v with
  | Scalar NaN => inl (ValueError "cannot convert float NaN to integer")
  | Scalar (Str s) => Float.int_float_str s
  | Series _ => inl (TypeError "cannot convert the series to <class 'float'>")
  end.

End Pandas.

Import Pandas.

Section ImportFile.

(** [str(x)] of a Series, by the label of its cells, the index label of
    the row and the cells: the text pandas prints for it. *)
Variable series_text : string -> nat -> list Cell -> string.

Definition value_str (label : string) (i : nat) (v : Value) : string :=
  match v with
  | Scalar c => py_str c
  | Series cs => series_text label i cs
  end.

(** One turn of the loop over [df.iterrows()], for the row with index
    label [i]: the INSERT of the row, or [continue] on any exception.
    SQLite takes no integer beyond 64 bits. *)
Definition import_row (clk : Clock) (cols : list string) (i : nat) (r : list Cell)
    (st : Db * Z) : Db * Z :=
  match get cols r "name", get cols r "roll", get cols r "course", get cols r "marks" with
  | Some n, Some rl, Some c, Some mk =>
      match int_float mk with
      | inl _ => st
      | inr mk' =>
          if (mk' <? - 2 ^ 63) || (2 ^ 63 <=? mk') then st
          else
            match Sql.insert_student (value_str "name" i n) (value_str "roll" i rl)
                    (value_str "course" i c) mk' (current_timestamp clk) st.1 with
            | inl _ => st
            | inr d => (d, st.2 + 1)
            end
      end
  | _, _, _, _ => st
  end.

Fixpoint import_rows (clk : Clock) (cols : list string) (i : nat)
    (rs : list (list Cell)) (st : Db * Z) : Db * Z :=
  match rs with
  | [] => st
  | r :: rs' => import_rows clk cols (S i) rs' (import_row clk cols i r st)
  end.

(** [import_file] on the file chosen in the dialog and read by pandas.
    The set [expected] is printed in the error text in an order Python
    does not fix; the text here stops before it.  The exception of the
    closing [load_page] lands in the [except Exception] clause of the
    handler and opens a second box. *)
Definition import_file (clk : Clock) (path : string) (df : DataFrame) (a : App)
    : App * list Message :=
  if negb (Text.nonempty path) then (a, [])
  else
    let cols := normalise (columns df) in
    if negb (has_expected cols)
    then (a, [showerror "Import Error" "File missing columns. Need at least: "])
    else
      let '(d, inserted) := import_rows clk cols 0 (records df) (db a, 0) in
      let a1 := audit clk a_import (d_import path inserted) (set_db d a) in
      let info := showinfo "Import"
                    ("Import complete. Inserted " +:+ pretty inserted +:+ " rows.") in
      match load_page 0 a1 with
      | (a2, None) => (a2, [info])
      | (a2, Some e) => (a2, [info; showerror "Import Error" (exn_text e)])
      end.

End ImportFile.


(** * Vocabulary of the properties *)

(** The UNIQUE constraint on [students.roll], as a property of a table: no
    two rows carry the same roll. *)
Definition roll_unique (m : gmap Z Student) : Prop :=
  ∀ i j s t, m !! i = Some s → m !! j = Some t → roll s = roll t → i = j.

Definition duplicate_roll : Message := showerror "Error" "Roll number already exists".
Definition reload_failed : Message := showerror "Error" no_statusbar.

(** The row [add_student] writes for a form. *)
Definition student_of_form (clk : Clock) (f : Form) : Student :=
  let v := new_of_form f in
  mkStudent (new_name v) (new_roll v) (new_course v) (new_marks v) (current_timestamp clk).


(** A database holding one student, Amy with roll 1, and the application
    started on it with the administrator logged in. *)
Definition sample_clock : Clock := mkClock "2024-05-01T09:00:00" "2024-05-01 09:00:00".

Definition amy : Student := mkStudent "Amy" "1" "CS" 90 "2024-05-01 09:00:00".

Definition amy_db : Db :=
  mkDb {[ 1 := amy ]} 1 [] (users (init_db empty_db)).

Definition amy_app : App :=
  (handle_login sample_clock "admin" "admin" (new_app amy_db)).1.

Definition amy_row : TreeRow := mkTreeRow 1 "Amy" "1" "CS" 90 "2024-05-01 09:00:00".




(** A Treeview row whose id, 7, is not in Amy's table. *)
Definition stale_row : TreeRow := mkTreeRow 7 "Dan" "7" "EE" 55 "2024-04-01 08:00:00".

(** [ceil(a / b)] for a positive [b], by the floor of the negated quotient,
    and the property that defines it: the least [n] with [a ≤ n * b]. *)
Definition ceil_div (a b : Z) : Z := - ((- a) / b).

Definition is_ceiling (n a b : Z) : Prop := (n - 1) * b < a ≤ n * b.

(** The box by which [delete_student] turns a Guest away. *)
Definition guest_cannot_delete : Message := showwarning "Permission" "Guest cannot delete".

(** The application on Amy's database after "Continue as Guest". *)
Definition guest_app : App := login_as_guest sample_clock (new_app amy_db).

Definition undo_performed : Message := showinfo "Undo" "Undo performed".
Definition redo_executed : Message := showinfo "Redo" "Redo executed (simple placeholder)".

(** A session in which the undo entry of an Add outlives the roll it
    recorded.  Bea is added with roll 007.  Her row is then selected; the
    Treeview hands back the roll of the selected row as the number 7, and
    [on_tree_select] fills the form with it.  The marks are changed to 85
    and the row is updated, which writes the roll 7.  The update is undone:
    the marks are 80 again, and the roll, restored from the selected row,
    stays 7.  The entry of Bea's Add, [U_delete "007"], is then on top, and
    no row carries that roll. *)
Definition bea_007_added : App :=
  (add_student sample_clock (mkForm "Bea" "007" "CS" "80") amy_app).1.

Definition bea_007_updated : App :=
  (update_student sample_clock
     (Some (mkTreeRow 2 "Bea" "7" "CS" 80 "2024-05-01 09:00:00"))
     (mkForm "Bea" "7" "CS" "85") bea_007_added).1.

Definition bea_renumbered : App := (undo_action sample_clock bea_007_updated).1.

(** A second session: Bea is added with roll 2 and then updated to roll 3;
    a file with one row, Cy with roll 2, is imported. *)
Definition bea_added : App :=
  (add_student sample_clock (mkForm "Bea" "2" "CS" "80") amy_app).1.

Definition bea_moved : App :=
  (update_student sample_clock
     (Some (mkTreeRow 2 "Bea" "2" "CS" 80 "2024-05-01 09:00:00"))
     (mkForm "Bea" "3" "CS" "80") bea_added).1.

Definition cy_file : DataFrame :=
  mkFrame ["name"; "roll"; "course"; "marks"]
    [[Str "Cy"; Str "2"; Str "EE"; Str "70"]].

(** A rendering of Series for files whose labels are distinct, in which
    no Series occurs. *)
Definition no_series (label : string) (i : nat) (cs : list Cell) : string := "".

Definition cy_imported : App :=
  (import_file no_series sample_clock "cy.csv" cy_file bea_moved).1.

(** A login that succeeds as [u] with role [r]: the session is set and no
    box is shown. *)
Definition logs_in_as (u r : string) (res : App * list Message) : Prop :=
  current_user res.1 = Some u ∧ current_role res.1 = Some r ∧ res.2 = [].

Definition invalid_credentials : Message := showerror "Login Failed" "Invalid credentials".

(** A string of white space only. *)
Definition blank (s : string) : Prop := Text.all_chars Text.isspace s = true.

(** A [users] table with one account whose password ends in a space. *)
Definition bob_db : Db :=
  mkDb ∅ 0 [] {[ "bob" := ("pw ", "Teacher") ]}.

(** Rows with equal names under NOCASE come in ascending order of id. *)
Definition ties_by_id (rows : list (Z * Student)) : Prop :=
  ∀ i j x y, rows !! i = Some x → rows !! j = Some y → (i < j)%nat →
    Text.nocase_eqb (name x.2) (name y.2) = true → x.1 < y.1.

(** The order of a result: a row stands before another when its name is
    not the greater under NOCASE and, the names being equal, its id is the
    smaller. *)
Definition row_before (x y : Z * Student) : Prop :=
  name_le x y ∧ (name_le y x → x.1 < y.1).

(** The order in the words of the specification, "by name,
    case-insensitive, ascending": the names with every letter in lower
    case ([str.lower()]) are compared character by character, and a proper
    prefix comes first.  Ties under this order are to come by ascending
    id. *)
Fixpoint codepoint_compare (a b : string) : comparison :=
  match a, b with
  | EmptyString, EmptyString => Eq
  | EmptyString, String _ _ => Lt
  | String _ _, EmptyString => Gt
  | String x a', String y b' =>
      match (Text.code x ?= Text.code y)%N with
      | Eq => codepoint_compare a' b'
      | o => o
      end
  end.

Definition caseless_compare (a b : string) : comparison :=
  codepoint_compare (py_lower_string a) (py_lower_string b).

Definition caseless_le (x y : Z * Student) : Prop :=
  caseless_compare (name x.2) (name y.2) ≠ Gt.

Definition caseless_ties_by_id (rows : list (Z * Student)) : Prop :=
  ∀ i j x y, rows !! i = Some x → rows !! j = Some y → (i < j)%nat →
    caseless_compare (name x.2) (name y.2) = Eq → x.1 < y.1.

(** A string of ASCII characters only. *)
Definition ascii_only (s : string) : bool :=
  Text.all_chars (fun c => (Text.code c <? 128)%N) s.

(** Four students whose names begin with the letter e with an acute
    accent, small (code point 233) or capital (code point 201). *)
Definition e_acute : ascii := "233"%char.
Definition E_acute : ascii := "201"%char.

Definition accents_db : Db :=
  mkDb {[ 1 := mkStudent (String e_acute "a") "1" "CS" 90 "2024-05-01 09:00:00";
          2 := mkStudent (String E_acute "b") "2" "CS" 80 "2024-05-01 09:00:01";
          3 := mkStudent (String e_acute "") "3" "CS" 70 "2024-05-01 09:00:02";
          4 := mkStudent (String E_acute "") "4" "CS" 60 "2024-05-01 09:00:03" ]}
       4 [] (users (init_db empty_db)).

Definition capitals_first : list (Z * Student) :=
  [ (4, mkStudent (String E_acute "") "4" "CS" 60 "2024-05-01 09:00:03");
    (2, mkStudent (String E_acute "b") "2" "CS" 80 "2024-05-01 09:00:01");
    (3, mkStudent (String e_acute "") "3" "CS" 70 "2024-05-01 09:00:02");
    (1, mkStudent (String e_acute "a") "1" "CS" 90 "2024-05-01 09:00:00") ].

(** Two students whose names differ in case only. *)
Definition amy_twice_db : Db :=
  mkDb {[ 1 := mkStudent "amy" "1" "CS" 90 "2024-05-01 09:00:00";
          2 := mkStudent "Amy" "2" "CS" 80 "2024-05-02 09:00:00" ]}
       2 [] (users (init_db empty_db)).

Definition small_first : list (Z * Student) :=
  [ (1, mkStudent "amy" "1" "CS" 90 "2024-05-01 09:00:00");
    (2, mkStudent "Amy" "2" "CS" 80 "2024-05-02 09:00:00") ].

(** Five students and a page size of two. *)
Definition five_db : Db :=
  mkDb {[ 1 := mkStudent "dave" "11" "CS" 50 "2024-05-01 09:00:00";
          2 := mkStudent "Bob" "12" "CS" 60 "2024-05-01 09:00:01";
          3 := mkStudent "alice" "13" "EE" 70 "2024-05-01 09:00:02";
          4 := mkStudent "Eve" "14" "EE" 80 "2024-05-01 09:00:03";
          5 := mkStudent "carol" "15" "CS" 90 "2024-05-01 09:00:04" ]}
       5 [] (users (init_db empty_db)).

Definition five_app : App :=
  mkApp five_db (Some "admin") (Some "Admin") 2 0 5 [] [] "" (1, 3).




Definition alice_and_bob : list (Z * Student) :=
  [ (3, mkStudent "alice" "13" "EE" 70 "2024-05-01 09:00:02");
    (2, mkStudent "Bob" "12" "CS" 60 "2024-05-01 09:00:01") ].

Definition five_by_name : list (Z * Student) :=
  [ (3, mkStudent "alice" "13" "EE" 70 "2024-05-01 09:00:02");
    (2, mkStudent "Bob" "12" "CS" 60 "2024-05-01 09:00:01");
    (5, mkStudent "carol" "15" "CS" 90 "2024-05-01 09:00:04");
    (1, mkStudent "dave" "11" "CS" 50 "2024-05-01 09:00:00");
    (4, mkStudent "Eve" "14" "EE" 80 "2024-05-01 09:00:03") ].

(** * The other handlers *)

(** [logout]: on confirmation the logout is logged and the session is
    dropped; the login screen that is built next holds no state of its own.
    The undo and redo stacks are attributes of the application object and
    are left alone. *)
Definition logout (clk : Clock) (confirm : bool) (a : App) : App :=
  if confirm
  then set_session None None (audit clk a_logout (d_text "user logged out") a)
  else a.

(** [clear_search]: empty the search box and load the first page. *)
Definition clear_search (a : App) : App * option Exn :=
  load_page 0 (set_search_text "" a).

(** Typing in the search box: each key release loads the first page for the
    text the box now holds. *)
Definition search_key_release (text : string) (a : App) : App * option Exn :=
  load_page 0 (set_search_text text a).

(** [apply_page_size], for the number the page-size entry holds (the entry
    is bound to [page_size], so the number is in the state already): a size
    that is not above zero is refused with the text of the ValueError; the
    entry keeps what was typed. *)
Definition apply_page_size (a : App) : App * list Message :=
  if page_size a <=? 0
  then (a, [showerror "Page Size Error" "Page size > 0"])
  else
    match load_page 0 a with
    | (a', None) =>
        (a', [showinfo "Page Size" ("Page size set to " +:+ pretty (page_size a))])
    | (a', Some e) => (a', [showerror "Page Size Error" (exn_text e)])
    end.

(** [load_audit]: [SELECT ... FROM audit_log ORDER BY id DESC LIMIT 1000],
    the rows the audit tab shows, top row first. *)
Definition load_audit (d : Db) : list AuditEntry :=
  take 1000 (reverse (audit_log d)).

(** ** Reports *)

(** [SELECT course, COUNT( * ) as c FROM students GROUP BY course], as the
    mapping from each course to its count. *)
Definition course_counts (m : gmap Z Student) : gmap string nat :=
  map_fold (fun _ s acc => <[course s := S (default 0%nat (acc !! course s))]> acc) ∅ m.

(** [SELECT marks FROM students], in the order of the table scan. *)
Definition marks_list (m : gmap Z Student) : list Z :=
  (fun kv => marks kv.2) <$> rows_by_id m.

(** [refresh_charts], with the figure and the canvas of the Reports tab
    in place: the two queries feed the figure; the state keeps the audit
    entry. *)
Definition refresh_charts (clk : Clock) (a : App)
    : App * (gmap string nat * list Z) :=
  (audit clk a_refresh_charts (d_text "") a,
   (course_counts (table a), marks_list (table a))).

(** ** Backup and restore *)

Definition DB_FILE : string := "advanced_students.db".

(** [timestamped_backup_path], for the text [strftime('%Y%m%d_%H%M%S')]
    gives for the local time. *)
Definition timestamped_backup_path (stamp : string) : string :=
  "backup_" +:+ stamp +:+ ".db".

(** [backup_db]: the database file is copied, then the backup is logged in
    the live database.  [fs] holds the database files on disk other than
    [DB_FILE], by path. *)
Definition backup_db (clk : Clock) (stamp : string) (a : App) (fs : gmap string Db)
    : App * gmap string Db * list Message :=
  let backup_path := timestamped_backup_path stamp in
  (audit clk a_backup (d_text backup_path) a,
   <[backup_path := db a]> fs,
   [showinfo "Backup" ("DB backed up to " +:+ backup_path)]).

(** [restore_db] for the path chosen in the dialog and the answer to "This
    will replace the current DB. Continue?".  [shutil.copyfile] raises when
    the path is the database file itself or names no file; otherwise the
    chosen file replaces the database, the restore is logged in it, and a
    restart is scheduled (the flag returned). *)
Definition restore_db (clk : Clock) (path : string) (confirm : bool)
    (a : App) (fs : gmap string Db) : App * list Message * bool :=
  if negb (Text.nonempty path) then (a, [], false)
  else if negb confirm then (a, [], false)
  else if bool_decide (path = DB_FILE)
  then (a, [showerror "Restore Error"
              ("'" +:+ path +:+ "' and '" +:+ DB_FILE +:+ "' are the same file")],
        false)
  else
    match fs !! path with
    | None =>
        (a, [showerror "Restore Error"
               ("[Errno 2] No such file or directory: '" +:+ path +:+ "'")],
         false)
    | Some d =>
        (audit clk a_restore (d_text path) (set_db d a),
         [showinfo "Restore" "DB restored. Restarting application."],
         true)
    end.

(** The restart [restore_db] schedules: the program starts over on the
    database file, with [init_db] and a new application object. *)
Definition restart (a : App) : App := new_app (init_db (db a)).

(** ** Runs of the application *)

(** One user action on the running application, restore apart (it swaps
    the whole database file). *)
Inductive step : App → App → Prop :=
  | step_login clk u p a : step a (handle_login clk u p a).1
  | step_guest clk a : step a (login_as_guest clk a)
  | step_logout clk c a : step a (logout clk c a)
  | step_add clk f a : step a (add_student clk f a).1
  | step_update clk sel f a : step a (update_student clk sel f a).1
  | step_delete clk sel c a : step a (delete_student clk sel c a).1
  | step_undo clk a : step a (undo_action clk a).1
  | step_redo a : step a (redo_action a).1
  | step_search text a : step a (search_key_release text a).1
  | step_clear_search a : step a (clear_search a).1
  | step_prev a : step a (prev_page a).1
  | step_next a : step a (next_page a).1
  | step_page_size a : step a (apply_page_size a).1
  | step_charts clk a : step a (refresh_charts clk a).1
  | step_import series_text clk path df a :
      step a (import_file series_text clk path df a).1
  | step_backup clk stamp a fs : step a (backup_db clk stamp a fs).1.1.

(** ** More vocabulary *)

(** Every id in the table is at most the AUTOINCREMENT counter. *)
Definition ids_bounded (d : Db) : Prop :=
  ∀ i s, students d !! i = Some s → i ≤ sqlite_sequence d.

(** The rules of the form, written out for a stored row: the name is not
    empty and made of letters, spaces, points and hyphens; the roll has 1 to
    12 characters, all digits; the course is not empty; the marks lie
    between 0 and 100.  Letters and digits are given by their code points:
    the ASCII letters, the ordinal indicators, the micro sign and the
    Latin-1 letters; the ASCII digits and the superscripts one, two and
    three. *)
Definition letter_code (n : N) : Prop :=
  (65 ≤ n ≤ 90 ∨ 97 ≤ n ≤ 122 ∨ n = 170 ∨ n = 181 ∨ n = 186 ∨
   192 ≤ n ≤ 214 ∨ 216 ≤ n ≤ 246 ∨ 248 ≤ n ≤ 255)%N.

Definition digit_code (n : N) : Prop :=
  (48 ≤ n ≤ 57 ∨ n = 178 ∨ n = 179 ∨ n = 185)%N.

Definition codes (s : string) : list N :=
  Text.code <$> String.list_ascii_of_string s.

Definition within_rules (s : Student) : Prop :=
  name s ≠ "" ∧
  Forall (fun n => letter_code n ∨ n = 32%N ∨ n = 45%N ∨ n = 46%N) (codes (name s)) ∧
  (1 ≤ String.length (roll s) ≤ 12)%nat ∧
  Forall digit_code (codes (roll s)) ∧
  course s ≠ "" ∧
  0 ≤ marks s ≤ 100.

(** The text [t] contains [s]. *)
Definition contains (t s : string) : Prop := ∃ pre post, t = pre +:+ s +:+ post.

(** The first [n] pages of the Treeview, first page first. *)
Definition pages (a : App) (n : nat) : list (list (Z * Student)) :=
  (fun k => fetch_page a (Z.of_nat k)) <$> seq 0 n.

(** The selected row shows what the table holds under its id. *)
Definition shows (row : TreeRow) (s : Student) : Prop :=
  row_name row = name s ∧ row_roll row = roll s ∧
  row_course row = course s ∧ row_marks row = marks s.

(** The statements by which the handlers write the database. *)
Inductive db_write : Db → Db → Prop :=
  | w_audit clk u r act det d : db_write d (log_audit clk u r act det d)
  | w_insert n r c mk now d d' :
      Sql.insert_student n r c mk now d = inr d' → db_write d d'
  | w_insert_with_id i s d d' :
      Sql.insert_student_with_id i s d = inr d' → db_write d d'
  | w_update n r c mk i d d' :
      Sql.update_student n r c mk i d = inr d' → db_write d d'
  | w_delete_by_id i d : db_write d (Sql.delete_by_id i d)
  | w_delete_by_roll r d : db_write d (Sql.delete_by_roll r d).

(** Amy deleted by the administrator, then a file imported in which Cy
    carries Amy's roll. *)
Definition amy_deleted : App :=
  (delete_student sample_clock (Some amy_row) true amy_app).1.

Definition cy_takes_roll_1 : DataFrame :=
  mkFrame ["name"; "roll"; "course"; "marks"]
    [[Str "Cy"; Str "1"; Str "EE"; Str "70"]].

Definition roll_1_retaken : App :=
  (import_file no_series sample_clock "cy.csv" cy_takes_roll_1 amy_deleted).1.

(** The five students with a search text that matches none of them. *)
Definition five_filtered : App := set_search_text "zzz" five_app.

(** Nothing is left to do for row [r] of a file on database [d]: a turn of
    the import loop on it leaves the database and the count as they are. *)
Definition settled (series_text : string → nat → list Cell → string)
    (cols : list string) (i : nat) (r : list Cell) (d : Db) : Prop :=
  ∀ clk k, import_row series_text clk cols i r (d, k) = (d, k).

(** The text of the box that reports an import, and the box that follows
    it for the error of the page reload. *)
Definition import_complete (n : Z) : Message :=
  showinfo "Import" ("Import complete. Inserted " +:+ pretty n +:+ " rows.").

Definition import_reload_failed : Message := showerror "Import Error" no_statusbar.

Definition missing_columns : Message :=
  showerror "Import Error" "File missing columns. Need at least: ".

(** The number of students enrolled in a course, and the sum of the counts
    of a grouping. *)
Definition enrolled (c : string) (m : gmap Z Student) : nat :=
  length (filter (fun kv => course kv.2 = c) (map_to_list m)).

Definition sum_of_counts (cs : gmap string nat) : nat :=
  sum_list (map_to_list cs).*2.

(** The entry [log_audit] writes. *)
Definition audit_entry (clk : Clock) (u r : option string) (act : Action)
    (det : Details) : AuditEntry :=
  mkAudit (utcnow clk) u r act det.

(** The page-size entry edited to hold [n]. *)
Definition set_page_size (n : Z) (a : App) : App :=
  mkApp (db a) (current_user a) (current_role a) n (current_page a)
        (total_rows a) (undo_stack a) (redo_stack a) (search_text a) (lbl_page a).

Definition division_by_zero : string := "integer division or modulo by zero".

(** * Properties *)

(** ** What the paging and logging steps leave alone *)

Ltac unfold_setters :=
  unfold table, audit, log_audit, refresh_status, set_db, set_session,
    set_current_page, set_total_rows, set_undo_stack, set_redo_stack,
    set_search_text, set_lbl_page, Sql.delete_by_id, Sql.delete_by_roll,
    Sql.set_students, Sql.select_by_id in *.

Ltac frame_load_page :=
  intros; unfold load_page, reload_and_report; unfold_setters; simpl;
  repeat case_match; simplify_eq/=; try done.

Lemma load_page_students p a : students (db (load_page p a).1) = students (db a).
Proof. frame_load_page. Qed.

Lemma load_page_db p a : db (load_page p a).1 = db a.
Proof. frame_load_page. Qed.

Lemma load_page_undo_stack p a : undo_stack (load_page p a).1 = undo_stack a.
Proof. frame_load_page. Qed.

Lemma load_page_redo_stack p a : redo_stack (load_page p a).1 = redo_stack a.
Proof. frame_load_page. Qed.

Lemma load_page_role p a : current_role (load_page p a).1 = current_role a.
Proof. frame_load_page. Qed.

Lemma load_page_user p a : current_user (load_page p a).1 = current_user a.
Proof. frame_load_page. Qed.

Lemma load_page_page_size p a : page_size (load_page p a).1 = page_size a.
Proof. frame_load_page. Qed.

Lemma load_page_raises p a :
  page_size a ≠ 0 → (load_page p a).2 = Some (AttributeError no_statusbar).
Proof. intros H. unfold load_page. unfold_setters. simpl. case_match; [lia | done]. Qed.


Lemma reload_and_report_db t m a : db (reload_and_report t m a).1 = db a.
Proof.
  unfold reload_and_report. destruct (load_page (current_page a) a) as [a' [e|]] eqn:E;
    simpl; pose proof (load_page_db (current_page a) a) as H; rewrite E in H; done.
Qed.

Lemma reload_and_report_undo_stack t m a :
  undo_stack (reload_and_report t m a).1 = undo_stack a.
Proof.
  unfold reload_and_report. destruct (load_page (current_page a) a) as [a' [e|]] eqn:E;
    simpl; pose proof (load_page_undo_stack (current_page a) a) as H; rewrite E in H; done.
Qed.

Lemma reload_and_report_redo_stack t m a :
  redo_stack (reload_and_report t m a).1 = redo_stack a.
Proof.
  unfold reload_and_report. destruct (load_page (current_page a) a) as [a' [e|]] eqn:E;
    simpl; pose proof (load_page_redo_stack (current_page a) a) as H; rewrite E in H; done.
Qed.

Lemma reload_and_report_role t m a :
  current_role (reload_and_report t m a).1 = current_role a.
Proof.
  unfold reload_and_report. destruct (load_page (current_page a) a) as [a' [e|]] eqn:E;
    simpl; pose proof (load_page_role (current_page a) a) as H; rewrite E in H; done.
Qed.

Lemma reload_and_report_page_size t m a :
  page_size (reload_and_report t m a).1 = page_size a.
Proof.
  unfold reload_and_report. destruct (load_page (current_page a) a) as [a' [e|]] eqn:E;
    simpl; pose proof (load_page_page_size (current_page a) a) as H; rewrite E in H; done.
Qed.

Lemma reload_and_report_raises t m a :
  page_size a ≠ 0 → (reload_and_report t m a).2 = [showerror t no_statusbar].
Proof.
  intros H. unfold reload_and_report.
  pose proof (load_page_raises (current_page a) a H) as E.
  destruct (load_page (current_page a) a) as [a' o]. simpl in E. by subst.
Qed.

Lemma reload_and_report_msgs t m a :
  (reload_and_report t m a).2 = [showerror t no_statusbar] ∨
  (reload_and_report t m a).2 = [showerror t "integer division or modulo by zero"].
Proof.
  unfold reload_and_report, load_page.
  destruct (page_size _ =? 0); simpl; [by right | by left].
Qed.

(** ** The UNIQUE constraint as an invariant of the table *)

Lemma roll_taken_true r (m : gmap Z Student) :
  Sql.roll_taken r m = true ↔ ∃ i s, m !! i = Some s ∧ roll s = r.
Proof.
  unfold Sql.roll_taken. rewrite bool_decide_eq_true.
  apply (map_Exists_lookup (fun _ s => roll s = r)).
Qed.

Lemma roll_taken_false r (m : gmap Z Student) :
  Sql.roll_taken r m = false ↔ ∀ i s, m !! i = Some s → roll s ≠ r.
Proof.
  rewrite <- not_true_iff_false, roll_taken_true. split.
  - intros H i s Hi Hr. apply H. eauto.
  - intros H (i & s & Hi & Hr). by eapply H.
Qed.

Lemma roll_free_after_delete (m : gmap Z Student) i s :
  roll_unique m → m !! i = Some s → Sql.roll_taken (roll s) (delete i m) = false.
Proof.
  intros U Hi. apply roll_taken_false. intros j t Hj Hr.
  apply lookup_delete_Some in Hj as [Hne Hj].
  apply Hne. symmetry. by eapply (U j i t s).
Qed.

Lemma largest_rowid_ge (m : gmap Z Student) i s :
  m !! i = Some s → i ≤ Sql.largest_rowid m.
Proof.
  intros Hi. unfold Sql.largest_rowid.
  assert (Hin : i ∈ (map_to_list m).*1).
  { apply list_elem_of_fmap. exists (i, s). split; [done|].
    by apply elem_of_map_to_list. }
  induction ((map_to_list m).*1) as [|k l IH]; [by apply elem_of_nil in Hin|].
  apply elem_of_cons in Hin as [->|Hin]; simpl; [lia|].
  specialize (IH Hin). lia.
Qed.

Lemma next_id_fresh d : students d !! Sql.next_id d = None.
Proof.
  destruct (students d !! Sql.next_id d) as [s|] eqn:E; [|done].
  apply largest_rowid_ge in E. unfold Sql.next_id in E. lia.
Qed.

Lemma roll_unique_empty : roll_unique ∅.
Proof. intros i j s t H. by rewrite lookup_empty in H. Qed.

Lemma roll_unique_insert (m : gmap Z Student) i s :
  roll_unique m → Sql.roll_taken (roll s) (delete i m) = false →
  roll_unique (<[i := s]> m).
Proof.
  intros U F0 j k x y Hj Hk Hr.
  pose proof (proj1 (roll_taken_false _ _) F0) as F.
  apply lookup_insert_Some in Hj as [[<- <-]|[Hij Hj]];
    apply lookup_insert_Some in Hk as [[<- <-]|[Hik Hk]]; try done.
  - exfalso. eapply (F k y); [by apply lookup_delete_Some|done].
  - exfalso. eapply (F j x); [by apply lookup_delete_Some|done].
  - by eapply U.
Qed.

Lemma roll_unique_subseteq (m m' : gmap Z Student) :
  m' ⊆ m → roll_unique m → roll_unique m'.
Proof.
  intros Hsub U i j s t Hi Hj. apply (U i j s t); by eapply lookup_weaken.
Qed.

Lemma roll_taken_delete r i (m : gmap Z Student) :
  Sql.roll_taken r m = false → Sql.roll_taken r (delete i m) = false.
Proof.
  rewrite !roll_taken_false. intros H j s Hj.
  apply lookup_delete_Some in Hj as [_ Hj]. by eapply H.
Qed.

(** Every statement that writes [students] keeps the rolls distinct. *)
Lemma insert_student_unique n r c mk now d d' :
  roll_unique (students d) →
  Sql.insert_student n r c mk now d = inr d' → roll_unique (students d').
Proof.
  unfold Sql.insert_student. intros U H.
  destruct (Sql.roll_taken r (students d)) eqn:Ht; [done|]. simplify_eq/=.
  apply roll_unique_insert; [done|]. by apply roll_taken_delete.
Qed.

Lemma insert_student_with_id_unique i s d d' :
  roll_unique (students d) →
  Sql.insert_student_with_id i s d = inr d' → roll_unique (students d').
Proof.
  unfold Sql.insert_student_with_id. intros U H.
  case_bool_decide; [done|].
  destruct (Sql.roll_taken (roll s) (students d)) eqn:Ht; [done|]. simplify_eq/=.
  apply roll_unique_insert; [done|]. by apply roll_taken_delete.
Qed.

Lemma update_student_unique n r c mk i d d' :
  roll_unique (students d) →
  Sql.update_student n r c mk i d = inr d' → roll_unique (students d').
Proof.
  unfold Sql.update_student. intros U H.
  destruct (students d !! i) as [old|]; [|by simplify_eq].
  destruct (Sql.roll_taken r (delete i (students d))) eqn:Ht; [done|]. simplify_eq/=.
  by apply roll_unique_insert.
Qed.

Lemma delete_by_id_unique i d :
  roll_unique (students d) → roll_unique (students (Sql.delete_by_id i d)).
Proof. apply roll_unique_subseteq. simpl. apply delete_subseteq. Qed.

Lemma delete_by_roll_unique r d :
  roll_unique (students d) → roll_unique (students (Sql.delete_by_roll r d)).
Proof. apply roll_unique_subseteq. simpl. apply map_filter_subseteq. Qed.

(** So do the handlers: the invariant holds of the empty database and of
    every table the application reaches from it. *)
Lemma add_student_unique clk f a :
  roll_unique (table a) → roll_unique (table (add_student clk f a).1).
Proof.
  intros U. unfold add_student. destruct (validate_form f) as [[]|]; simpl; [|done..].
  destruct (Sql.insert_student _ _ _ _ _ (db a)) as [[]|d] eqn:E; try done.
  unfold table. rewrite reload_and_report_db. simpl.
  by eapply insert_student_unique.
Qed.

Lemma update_student_handler_unique clk sel f a :
  roll_unique (table a) → roll_unique (table (update_student clk sel f a).1).
Proof.
  intros U. unfold update_student. destruct sel as [row|]; [|done].
  destruct (validate_form f) as [[]|]; simpl; [|done..].
  destruct (Sql.update_student _ _ _ _ _ (db a)) as [[]|d] eqn:E; try done.
  unfold table. rewrite reload_and_report_db. simpl.
  by eapply update_student_unique.
Qed.

Lemma delete_student_unique clk sel confirm a :
  roll_unique (table a) → roll_unique (table (delete_student clk sel confirm a).1).
Proof.
  intros U. unfold delete_student. destruct sel as [row|]; [|done].
  case_bool_decide; [done|]. destruct confirm; simpl; [|done].
  destruct (Sql.select_by_id (row_id row) (db a)); [|done].
  unfold table. rewrite reload_and_report_db. simpl.
  by apply delete_by_id_unique.
Qed.

Lemma undo_write_unique clk e a a1 :
  roll_unique (table a) → undo_write clk e a = inr a1 → roll_unique (table a1).
Proof.
  intros U. unfold undo_write. destruct e as [r|sid old|sid row].
  - intros [= <-]. unfold table. simpl. by apply delete_by_roll_unique.
  - destruct (Sql.update_student _ _ _ _ _ (db a)) as [x|d] eqn:E; [done|].
    intros [= <-]. unfold table. simpl. by eapply update_student_unique.
  - destruct (Sql.insert_student_with_id _ _ (db a)) as [x|d] eqn:E; [done|].
    intros [= <-]. unfold table. simpl. by eapply insert_student_with_id_unique.
Qed.

Lemma undo_action_unique clk a :
  roll_unique (table a) → roll_unique (table (undo_action clk a).1).
Proof.
  intros U. unfold undo_action. destruct (undo_stack a) as [|e rest] eqn:Htop; [done|].
  destruct (undo_write clk e (set_undo_stack rest a)) as [x|a1] eqn:Hw; [done|].
  pose proof (load_page_db (current_page a1) a1) as Hdb.
  destruct (load_page (current_page a1) a1) as [a2 [x|]]; simpl in *;
    unfold table; rewrite Hdb; by eapply (undo_write_unique clk e (set_undo_stack rest a)).
Qed.

(** ** Delete, then undo *)

Lemma delete_student_performed clk row a s :
  current_role a ≠ Some "Guest" →
  table a !! row_id row = Some s →
  table (delete_student clk (Some row) true a).1 = delete (row_id row) (table a) ∧
  undo_stack (delete_student clk (Some row) true a).1
    = U_insert (row_id row) s :: undo_stack a.
Proof.
  intros Hrole Hrow. unfold delete_student.
  rewrite bool_decide_false by done. simpl.
  unfold Sql.select_by_id. unfold table in Hrow. rewrite Hrow.
  unfold table. rewrite reload_and_report_db, reload_and_report_undo_stack.
  by unfold_setters.
Qed.

Lemma undo_action_written clk a e rest a1 :
  undo_stack a = e :: rest →
  undo_write clk e (set_undo_stack rest a) = inr a1 →
  db (undo_action clk a).1 = db a1 ∧
  undo_stack (undo_action clk a).1 = undo_stack a1 ∧
  redo_stack (undo_action clk a).1 = redo_stack a1.
Proof.
  intros Htop Hw. unfold undo_action. rewrite Htop, Hw.
  pose proof (load_page_db (current_page a1) a1) as Hdb.
  pose proof (load_page_undo_stack (current_page a1) a1) as Hun.
  pose proof (load_page_redo_stack (current_page a1) a1) as Hre.
  destruct (load_page (current_page a1) a1) as [a2 [x|]]; done.
Qed.

Lemma undo_write_insert clk a i s :
  table a !! i = None →
  Sql.roll_taken (roll s) (table a) = false →
  ∃ a1, undo_write clk (U_insert i s) a = inr a1 ∧
        table a1 = <[i := s]> (table a) ∧
        undo_stack a1 = undo_stack a ∧
        redo_stack a1 = R_delete (roll s) :: redo_stack a.
Proof.
  intros Hfree Hroll. unfold undo_write, Sql.insert_student_with_id.
  unfold table in *. rewrite Hroll.
  rewrite bool_decide_false by (rewrite Hfree; by intros [? ?]).
  eexists. split; [done|]. by unfold_setters.
Qed.

Lemma undo_insert_table clk a i s rest :
  undo_stack a = U_insert i s :: rest →
  table a !! i = None →
  Sql.roll_taken (roll s) (table a) = false →
  table (undo_action clk a).1 = <[i := s]> (table a) ∧
  undo_stack (undo_action clk a).1 = rest.
Proof.
  intros Htop Hfree Hroll.
  destruct (undo_write_insert clk (set_undo_stack rest a) i s Hfree Hroll)
    as (a1 & Hw & Ht & Hu & _).
  destruct (undo_action_written clk a _ _ _ Htop Hw) as (Hdb & Hun & _).
  unfold table in *. rewrite Hdb, Hun, Ht, Hu. done.
Qed.

(** C1.  Deleting a stored row and undoing at once gives back the table as
    it was: the row returns under its id with the name, roll, course, marks
    and created_at it had.  The delete is one that is carried out: a row is
    selected, the role is not Guest and the user confirms. *)
Theorem C1_delete_then_undo_restores_table clk1 clk2 row a s :
  roll_unique (table a) →
  table a !! row_id row = Some s →
  current_role a ≠ Some "Guest" →
  let a1 := (delete_student clk1 (Some row) true a).1 in
  let a2 := (undo_action clk2 a1).1 in
  table a1 !! row_id row = None ∧
  table a2 !! row_id row = Some s ∧
  table a2 = table a.
Proof.
  intros U Hrow Hrole a1 a2.
  destruct (delete_student_performed clk1 row a s Hrole Hrow) as [Ht Hu].
  fold a1 in Ht, Hu.
  assert (Hnone : table a1 !! row_id row = None) by (rewrite Ht; apply lookup_delete_eq).
  assert (Hfree : Sql.roll_taken (roll s) (table a1) = false)
    by (rewrite Ht; by apply roll_free_after_delete).
  destruct (undo_insert_table clk2 a1 _ _ _ Hu Hnone Hfree) as [Ht2 _].
  fold a2 in Ht2.
  assert (Heq : table a2 = table a).
  { rewrite Ht2, Ht, insert_delete_eq. by apply insert_id. }
  split; [done|]. split; [by rewrite Heq | done].
Qed.

Lemma amy_app_table : table amy_app = {[ 1 := amy ]}.
Proof. vm_compute. reflexivity. Qed.

Lemma roll_unique_singleton i s : roll_unique {[ i := s ]}.
Proof.
  intros j k x y Hj Hk _.
  apply lookup_singleton_Some in Hj as [<- _].
  by apply lookup_singleton_Some in Hk as [<- _].
Qed.

Lemma C1_witness :
  table (undo_action sample_clock
           (delete_student sample_clock (Some amy_row) true amy_app).1).1
  = table amy_app.
Proof.
  apply (C1_delete_then_undo_restores_table sample_clock sample_clock amy_row amy_app amy).
  - rewrite amy_app_table. apply roll_unique_singleton.
  - vm_compute. reflexivity.
  - vm_compute. discriminate.
Defined.

(** ** Two Adds with one roll *)

Lemma load_page_exn p a e :
  (load_page p a).2 = Some e →
  e = ZeroDivisionError "integer division or modulo by zero" ∨
  e = AttributeError no_statusbar.
Proof. unfold load_page. case_match; simpl; intros [= <-]; auto. Qed.



Lemma add_student_fresh clk f a :
  validate_form f = Some true →
  Sql.roll_taken (Text.strip (m_roll f)) (table a) = false →
  table (add_student clk f a).1
    = <[Sql.next_id (db a) := student_of_form clk f]> (table a) ∧
  undo_stack (add_student clk f a).1
    = U_delete (Text.strip (m_roll f)) :: undo_stack a ∧
  redo_stack (add_student clk f a).1 = [] ∧
  page_size (add_student clk f a).1 = page_size a ∧
  (page_size a ≠ 0 → (add_student clk f a).2 = [reload_failed]) ∧
  (duplicate_roll ∉ (add_student clk f a).2).
Proof.
  intros Hv Ht. unfold add_student, Sql.insert_student. rewrite Hv. simpl.
  unfold table in *. rewrite Ht.
  rewrite reload_and_report_db, reload_and_report_undo_stack,
    reload_and_report_redo_stack, reload_and_report_page_size.
  repeat split; try done.
  - intros Hps. by apply reload_and_report_raises.
  - match goal with |- _ ∉ (reload_and_report ?t ?m ?x).2 =>
      destruct (reload_and_report_msgs t m x) as [-> | ->] end;
      intros [H|H]%elem_of_cons; try discriminate; by apply elem_of_nil in H.
Qed.





(** ** Update of a row that is not there *)


Lemma update_student_stored clk row f a s :
  table a !! row_id row = Some s →
  validate_form f = Some true →
  Sql.roll_taken (Text.strip (m_roll f)) (delete (row_id row) (table a)) = false →
  let v := new_of_form f in
  table (update_student clk (Some row) f a).1
    = <[row_id row := mkStudent (new_name v) (new_roll v) (new_course v) (new_marks v)
                        (created_at s)]> (table a) ∧
  undo_stack (update_student clk (Some row) f a).1
    = U_update (row_id row) (old_of_row row) :: undo_stack a ∧
  redo_stack (update_student clk (Some row) f a).1 = [] ∧
  (page_size a ≠ 0 → (update_student clk (Some row) f a).2 = [reload_failed]).
Proof.
  intros Hrow Hv Hfree. unfold update_student, Sql.update_student. rewrite Hv. simpl.
  unfold table in *. rewrite Hrow, Hfree.
  rewrite reload_and_report_db, reload_and_report_undo_stack,
    reload_and_report_redo_stack.
  repeat split; try done. intros Hps. by apply reload_and_report_raises.
Qed.

Lemma update_student_conflict clk row f a s :
  table a !! row_id row = Some s →
  validate_form f = Some true →
  Sql.roll_taken (Text.strip (m_roll f)) (delete (row_id row) (table a)) = true →
  update_student clk (Some row) f a
  = (a, [showerror "Error" "Roll conflicts with another record"]).
Proof.
  intros Hrow Hv Ht. unfold update_student, Sql.update_student. rewrite Hv. simpl.
  unfold table in *. by rewrite Hrow, Ht.
Qed.




(** ** The page count *)

Lemma ceil_div_is_ceiling a b : 0 < b → is_ceiling (ceil_div a b) a b.
Proof.
  intros Hb. unfold is_ceiling, ceil_div.
  pose proof (Z.div_mod (- a) b ltac:(lia)).
  pose proof (Z.mod_pos_bound (- a) b Hb). nia.
Qed.

Lemma is_ceiling_unique n m a b : 0 < b → is_ceiling n a b → is_ceiling m a b → n = m.
Proof. unfold is_ceiling. intros Hb Hn Hm. nia. Qed.

Lemma rounded_up_quotient_is_ceiling a b :
  0 < b → is_ceiling ((a + b - 1) / b) a b.
Proof.
  intros Hb. unfold is_ceiling.
  pose proof (Z.div_mod (a + b - 1) b ltac:(lia)).
  pose proof (Z.mod_pos_bound (a + b - 1) b Hb). nia.
Qed.

Lemma load_page_label p a :
  page_size a ≠ 0 →
  lbl_page (load_page p a).1
  = (Z.max 0 p + 1,
     total_pages (count_matching (search_text a) (table a)) (page_size a)).
Proof.
  intros Hps. unfold load_page. unfold_setters. simpl.
  case_match; [lia | done].
Qed.

(** C6.  For a page size above zero and any number of matching rows, the
    page count [load_page] reports is the ceiling of their quotient, and 1
    when no row matches; it is never below 1.  [next_page] computes the same
    number from [total_rows] to decide whether there is a next page. *)
Theorem C6_page_count total ps :
  0 ≤ total → 0 < ps →
  total_pages total ps = (if total =? 0 then 1 else ceil_div total ps) ∧
  (0 < total → is_ceiling (total_pages total ps) total ps) ∧
  1 ≤ total_pages total ps ∧
  (∀ p a, page_size a = ps →
     count_matching (search_text a) (table a) = total →
     (lbl_page (load_page p a).1).2 = (if total =? 0 then 1 else ceil_div total ps)) ∧
  (∀ a, page_size a = ps → total_rows a = total →
     next_page a
     = if current_page a + 1 <? (if total =? 0 then 1 else ceil_div total ps)
       then load_page (current_page a + 1) a else (a, None)).
Proof.
  intros Ht Hps.
  assert (Hq : is_ceiling ((total + ps - 1) / ps) total ps)
    by by apply rounded_up_quotient_is_ceiling.
  assert (Hc : is_ceiling (ceil_div total ps) total ps)
    by by apply ceil_div_is_ceiling.
  assert (Heq : (total + ps - 1) / ps = ceil_div total ps)
    by by eapply is_ceiling_unique.
  assert (Hmain : total_pages total ps = (if total =? 0 then 1 else ceil_div total ps)).
  { unfold total_pages. rewrite Heq. destruct (Z.eqb_spec total 0) as [->|Hne].
    - unfold is_ceiling in Hc. nia.
    - unfold is_ceiling in Hc. nia. }
  split; [done|]. split; [|split; [|split]].
  - intros Hpos. rewrite Hmain. destruct (Z.eqb_spec total 0); [lia | done].
  - unfold total_pages. lia.
  - intros p a <- <-. rewrite load_page_label by lia. simpl. done.
  - intros a Ha Hrows. unfold next_page. rewrite Ha, Hrows, Hmain.
    destruct (Z.eqb_spec ps 0); [lia | done].
Qed.

Lemma C6_witness : total_pages 5 2 = 3 ∧ total_pages 0 2 = 1.
Proof.
  split.
  - apply (C6_page_count 5 2); lia.
  - apply (C6_page_count 0 2); lia.
Defined.

(** ** Roles *)

Lemma reload_and_report_msgs_eq t m a :
  (reload_and_report t m a).2
  = if page_size a =? 0
    then [showerror t "integer division or modulo by zero"]
    else [showerror t no_statusbar].
Proof.
  unfold reload_and_report, load_page. unfold_setters. simpl.
  by destruct (page_size a =? 0).
Qed.

Lemma add_student_any_role clk f u r a :
  table (add_student clk f (set_session u r a)).1 = table (add_student clk f a).1 ∧
  (add_student clk f (set_session u r a)).2 = (add_student clk f a).2.
Proof.
  unfold add_student. destruct (validate_form f) as [[]|]; simpl; [|done..].
  replace (db (set_session u r a)) with (db a) by done.
  destruct (Sql.insert_student _ _ _ _ _ (db a)) as [[]|d]; try done.
  unfold table. rewrite !reload_and_report_db, !reload_and_report_msgs_eq. done.
Qed.

Lemma update_student_any_role clk sel f u r a :
  table (update_student clk sel f (set_session u r a)).1
    = table (update_student clk sel f a).1 ∧
  (update_student clk sel f (set_session u r a)).2 = (update_student clk sel f a).2.
Proof.
  unfold update_student. destruct sel as [row|]; [|done].
  destruct (validate_form f) as [[]|]; simpl; [|done..].
  replace (db (set_session u r a)) with (db a) by done.
  destruct (Sql.update_student _ _ _ _ _ (db a)) as [[]|d]; try done.
  unfold table. rewrite !reload_and_report_db, !reload_and_report_msgs_eq. done.
Qed.

(** C7.  With the role Guest a delete request changes nothing, and with a
    row selected it is answered "Guest cannot delete".  Add and update are
    open to every session, the Guest's included: a valid Add with a roll
    not in the table writes its row, and a valid Update of a stored row,
    with a roll no other row carries, writes the four fields under the
    row's id.  Neither looks at the role: whatever user and role the
    session holds, they write the same table and show the same box. *)
Theorem C7_guest_may_not_delete_but_may_add_and_update clk sel confirm f a :
  (current_role a = Some "Guest" →
     (delete_student clk sel confirm a).1 = a ∧
     (is_Some sel → (delete_student clk sel confirm a).2 = [guest_cannot_delete])) ∧
  (validate_form f = Some true →
     (Sql.roll_taken (Text.strip (m_roll f)) (table a) = false →
        table (add_student clk f a).1
          = <[Sql.next_id (db a) := student_of_form clk f]> (table a)) ∧
     (∀ row s, sel = Some row → table a !! row_id row = Some s →
        Sql.roll_taken (Text.strip (m_roll f)) (delete (row_id row) (table a)) = false →
        table (update_student clk sel f a).1
          = <[row_id row := mkStudent (new_name (new_of_form f)) (new_roll (new_of_form f))
                              (new_course (new_of_form f)) (new_marks (new_of_form f))
                              (created_at s)]> (table a))) ∧
  (∀ u r,
     table (add_student clk f (set_session u r a)).1 = table (add_student clk f a).1 ∧
     (add_student clk f (set_session u r a)).2 = (add_student clk f a).2 ∧
     table (update_student clk sel f (set_session u r a)).1
       = table (update_student clk sel f a).1 ∧
     (update_student clk sel f (set_session u r a)).2
       = (update_student clk sel f a).2).
Proof.
  split; [|split].
  - intros Hguest. unfold delete_student. rewrite Hguest.
    destruct sel as [row|]; simpl; [done|].
    split; [done | by intros [? ?]].
  - intros Hv. split.
    + intros Hf. by destruct (add_student_fresh clk f a Hv Hf) as (Ht & _).
    + intros row s -> Hrow Hf.
      by destruct (update_student_stored clk row f a s Hrow Hv Hf) as (Ht & _).
  - intros u r.
    destruct (add_student_any_role clk f u r a).
    destruct (update_student_any_role clk sel f u r a). done.
Qed.

Lemma C7_witness :
  delete_student sample_clock (Some amy_row) true guest_app
    = (guest_app, [guest_cannot_delete]) ∧
  table (add_student sample_clock (mkForm "Bea" "2" "CS" "80") guest_app).1
    = <[2 := mkStudent "Bea" "2" "CS" 80 "2024-05-01 09:00:00"]> (table guest_app) ∧
  table (update_student sample_clock (Some amy_row) (mkForm "Bea" "2" "CS" "80") guest_app).1
    = <[1 := mkStudent "Bea" "2" "CS" 80 "2024-05-01 09:00:00"]> (table guest_app).
Proof.
  destruct (C7_guest_may_not_delete_but_may_add_and_update sample_clock
              (Some amy_row) true (mkForm "Bea" "2" "CS" "80") guest_app)
    as (Hdel & Hwrite & _).
  destruct Hdel as [H1 H2]; [vm_compute; reflexivity|].
  destruct Hwrite as [Hadd Hupd]; [vm_compute; reflexivity|].
  split; [|split].
  - rewrite (surjective_pairing (delete_student _ _ _ _)).
    rewrite H1, H2; [done | by eexists].
  - apply Hadd. vm_compute. reflexivity.
  - apply (Hupd amy_row amy); [reflexivity | vm_compute; reflexivity..].
Defined.

(** ** Redo *)

Lemma redo_action_db a : db (redo_action a).1 = db a.
Proof.
  unfold redo_action. destruct (redo_stack a); simpl; [done|].
  by rewrite load_page_db.
Qed.

Lemma undo_write_pushes_redo clk e a a1 :
  undo_write clk e a = inr a1 → ∃ r, redo_stack a1 = r :: redo_stack a.
Proof.
  unfold undo_write. intros H. destruct e; repeat case_match; simplify_eq;
    eexists; by unfold_setters.
Qed.

Lemma undo_performed_inv clk a :
  (undo_action clk a).2 = [undo_performed] →
  ∃ e rest a1, undo_stack a = e :: rest ∧
               undo_write clk e (set_undo_stack rest a) = inr a1.
Proof.
  unfold undo_action, undo_performed.
  destruct (undo_stack a) as [|e rest]; [discriminate|].
  destruct (undo_write clk e (set_undo_stack rest a)) as [x|a1] eqn:Hw;
    [simpl; congruence|].
  intros _. by exists e, rest, a1.
Qed.

Lemma redo_after_written_undo clk a e rest a' :
  undo_stack a = e :: rest →
  undo_write clk e (set_undo_stack rest a) = inr a' →
  let a1 := (undo_action clk a).1 in
  redo_stack a1 ≠ [] ∧
  (redo_action a1).2 = [redo_executed] ∧
  redo_stack (redo_action a1).1 = tail (redo_stack a1).
Proof.
  intros Htop Hw a1.
  destruct (undo_action_written clk a e rest a' Htop Hw) as (_ & _ & Hre).
  destruct (undo_write_pushes_redo clk e _ a' Hw) as [r Hr].
  subst a1. rewrite Hr in Hre.
  split; [by rewrite Hre|].
  unfold redo_action. rewrite Hre. simpl.
  rewrite load_page_redo_stack. done.
Qed.

(** C8.  Redo writes nothing to the database, whatever state an undo has
    left: the student table after the redo is the one before it, so what was
    undone is not applied again.  After an undo that was performed (its
    write was carried out, or it answered "Undo performed") the redo stack
    is not empty, and the redo pops its top entry and answers "Redo
    executed". *)
Theorem C8_redo_restores_nothing clk a :
  let a1 := (undo_action clk a).1 in
  db (redo_action a1).1 = db a1 ∧
  table (redo_action a1).1 = table a1 ∧
  ((undo_action clk a).2 = [undo_performed] →
     redo_stack a1 ≠ [] ∧
     (redo_action a1).2 = [redo_executed] ∧
     redo_stack (redo_action a1).1 = tail (redo_stack a1)) ∧
  (∀ e rest a', undo_stack a = e :: rest →
     undo_write clk e (set_undo_stack rest a) = inr a' →
     redo_stack a1 ≠ [] ∧
     (redo_action a1).2 = [redo_executed] ∧
     redo_stack (redo_action a1).1 = tail (redo_stack a1)).
Proof.
  intros a1. split; [apply redo_action_db|].
  split; [unfold table; by rewrite redo_action_db|]. split.
  - intros Hmsg.
    destruct (undo_performed_inv clk a Hmsg) as (e & rest & a' & Htop & Hw).
    by apply (redo_after_written_undo clk a e rest a').
  - intros e rest a' Htop Hw. by apply (redo_after_written_undo clk a e rest a').
Qed.

Lemma C8_witness :
  let a1 := (undo_action sample_clock
               (add_student sample_clock (mkForm "Bea" "2" "CS" "80") amy_app).1).1 in
  table a1 = table amy_app ∧
  table (redo_action a1).1 = table amy_app ∧
  (redo_action a1).2 = [redo_executed].
Proof.
  destruct (C8_redo_restores_nothing sample_clock
              (add_student sample_clock (mkForm "Bea" "2" "CS" "80") amy_app).1)
    as (_ & Htable & _ & Hafter).
  destruct (Hafter (U_delete "2") nil
              (match undo_write sample_clock (U_delete "2") (set_undo_stack nil bea_added)
               with inr x => x | inl _ => bea_added end))
    as (_ & Hmsg & _); [vm_compute; reflexivity..|].
  split; [vm_compute; reflexivity|]. split; [|exact Hmsg].
  etrans; [exact Htable | vm_compute; reflexivity].
Defined.

(** ** Undo of an Add *)

Lemma undo_delete_table clk a r rest :
  undo_stack a = U_delete r :: rest →
  table (undo_action clk a).1 = filter (fun kv => roll kv.2 ≠ r) (table a).
Proof.
  intros Htop.
  destruct (undo_action_written clk a (U_delete r) rest
              (set_redo_stack (R_insert r :: redo_stack a)
                 (audit clk a_undo_delete (d_text r)
                    (set_db (Sql.delete_by_roll r (db a)) (set_undo_stack rest a))))
              Htop) as (Hdb & _); [done|].
  unfold table. rewrite Hdb. by unfold_setters.
Qed.

(** C9.  The undo entry of an Add holds the roll of the form, and undoing
    it deletes by that roll: the rows left are exactly those that do not
    carry it now.  So a row carrying the roll is removed whatever its id,
    every other row stays, the added one included if its roll has changed,
    and when no row carries the roll the table is left as it is. *)
Theorem C9_undo_of_add_deletes_by_roll clk a r rest :
  (∀ clk' f b, validate_form f = Some true →
     Sql.roll_taken (Text.strip (m_roll f)) (table b) = false →
     undo_stack (add_student clk' f b).1
       = U_delete (Text.strip (m_roll f)) :: undo_stack b) ∧
  (undo_stack a = U_delete r :: rest →
     let a1 := (undo_action clk a).1 in
     table a1 = filter (fun kv => roll kv.2 ≠ r) (table a) ∧
     (∀ i s, table a !! i = Some s → roll s = r → table a1 !! i = None) ∧
     (∀ i s, table a !! i = Some s → roll s ≠ r → table a1 !! i = Some s) ∧
     (Sql.roll_taken r (table a) = false → table a1 = table a)).
Proof.
  split.
  { intros clk' f b Hv Hf.
    by destruct (add_student_fresh clk' f b Hv Hf) as (_ & Hu & _). }
  intros Htop a1. subst a1. rewrite (undo_delete_table clk a r rest Htop).
  split; [done|]. split; [|split].
  - intros i s Hi Hr. apply map_lookup_filter_None. right. intros s' Hi' Hne.
    simpl in Hne. congruence.
  - intros i s Hi Hr. by apply map_lookup_filter_Some.
  - intros Hfree. apply map_filter_id. intros i s Hi. simpl.
    by eapply roll_taken_false.
Qed.

Lemma bea_renumbered_state :
  undo_stack bea_007_added = [U_delete "007"] ∧
  table bea_007_added !! 2 = Some (mkStudent "Bea" "007" "CS" 80 "2024-05-01 09:00:00") ∧
  undo_stack bea_renumbered = [U_delete "007"] ∧
  table bea_007_updated !! 2 = Some (mkStudent "Bea" "7" "CS" 85 "2024-05-01 09:00:00") ∧
  table bea_renumbered !! 2 = Some (mkStudent "Bea" "7" "CS" 80 "2024-05-01 09:00:00").
Proof. repeat split; vm_compute; reflexivity. Qed.

Lemma C9_witness :
  table (undo_action sample_clock bea_renumbered).1 = table bea_renumbered ∧
  table (undo_action sample_clock bea_renumbered).1 !! 2
    = Some (mkStudent "Bea" "7" "CS" 80 "2024-05-01 09:00:00").
Proof.
  destruct (C9_undo_of_add_deletes_by_roll sample_clock bea_renumbered "007" [])
    as [_ Hundo].
  destruct Hundo as (_ & _ & Hkept & Hsame); [vm_compute; reflexivity|].
  split.
  - apply Hsame. vm_compute. reflexivity.
  - apply (Hkept 2 (mkStudent "Bea" "7" "CS" 80 "2024-05-01 09:00:00"));
      [vm_compute; reflexivity | discriminate].
Defined.

(** ** Login *)

Lemma lstrip_blank_app l s : blank l → Text.lstrip (l +:+ s) = Text.lstrip s.
Proof.
  unfold blank. induction l as [|c l IH]; simpl; [done|].
  intros [Hc Hl]%andb_prop. rewrite Hc. by apply IH.
Qed.

Lemma lstrip_blank l : blank l → Text.lstrip l = "".
Proof.
  unfold blank. induction l as [|c l IH]; simpl; [done|].
  intros [Hc Hl]%andb_prop. rewrite Hc. by apply IH.
Qed.

Lemma rstrip_blank l : blank l → Text.rstrip l = "".
Proof.
  unfold blank. induction l as [|c l IH]; simpl; [done|].
  intros [Hc Hl]%andb_prop. by rewrite IH, Hc.
Qed.

Lemma rstrip_app_blank s l : blank l → Text.rstrip (s +:+ l) = Text.rstrip s.
Proof.
  intros Hl. induction s as [|c s IH]; simpl.
  - by apply rstrip_blank.
  - by rewrite IH.
Qed.

Lemma length_lstrip s : (String.length (Text.lstrip s) ≤ String.length s)%nat.
Proof. induction s as [|c s IH]; simpl; [done|]. case_match; simpl; lia. Qed.

Lemma length_rstrip s : (String.length (Text.rstrip s) ≤ String.length s)%nat.
Proof.
  induction s as [|c s IH]; simpl; [done|].
  destruct (Text.rstrip s); [case_match|]; simpl in *; lia.
Qed.

Lemma strip_fixed s :
  Text.strip s = s → Text.lstrip s = s ∧ Text.rstrip s = s.
Proof.
  unfold Text.strip. intros H.
  assert (Hl : Text.lstrip s = s).
  { destruct s as [|c s]; [done|]. simpl in *.
    destruct (Text.isspace c); [|done].
    pose proof (length_rstrip (Text.lstrip s)) as H1.
    pose proof (length_lstrip s) as H2.
    rewrite H in H1. simpl in H1. lia. }
  split; [done|]. by rewrite Hl in H.
Qed.

Lemma strip_padded l1 l2 s :
  blank l1 → blank l2 → Text.strip s = s → Text.strip (l1 +:+ s +:+ l2) = s.
Proof.
  intros H1 H2 [Hl Hr]%strip_fixed. unfold Text.strip.
  rewrite lstrip_blank_app by done.
  destruct s as [|c s].
  - simpl. by rewrite lstrip_blank.
  - simpl in Hl. destruct (Text.isspace c) eqn:Hc.
    + pose proof (length_lstrip s) as Hlen. rewrite Hl in Hlen. simpl in Hlen. lia.
    + change (String c s +:+ l2) with (String c (s +:+ l2)).
      simpl Text.lstrip. rewrite Hc.
      change (String c (s +:+ l2)) with (String c s +:+ l2).
      by rewrite rstrip_app_blank.
Qed.

Lemma build_main_ui_session clk a :
  current_user (build_main_ui clk a) = current_user a ∧
  current_role (build_main_ui clk a) = current_role a.
Proof.
  unfold build_main_ui.
  pose proof (load_page_user 0 (set_search_text "" a)) as Hu.
  pose proof (load_page_role 0 (set_search_text "" a)) as Hr.
  destruct (load_page 0 (set_search_text "" a)) as [a1 [e|]]; simpl in *;
    by rewrite Hu, Hr.
Qed.

Lemma handle_login_stored clk a u p r :
  users (db a) !! u = Some (p, r) →
  Text.nonempty u = true → Text.nonempty p = true →
  ∀ user pass, Text.strip user = u → Text.strip pass = p →
  logs_in_as u r (handle_login clk user pass a).
Proof.
  intros Hstored Hu Hp user pass Hsu Hsp.
  unfold handle_login, logs_in_as. rewrite Hsu, Hsp, Hu, Hp. simpl.
  unfold Sql.select_role. rewrite Hstored. rewrite bool_decide_true by done.
  simpl. destruct (build_main_ui_session clk
    (audit clk a_login (d_text "successful login") (set_session (Some u) (Some r) a)))
    as [-> ->]. done.
Qed.

(** C10, as the code has it.  Login strips the white space around the
    entered username and password and compares what is left with the stored
    pair as it is.  So for a stored credential whose username and password
    are not empty and carry no white space at their own ends, every input
    that pads them with white space logs in with the stored role. *)
Theorem C10_login_strips_input clk a u p r l1 l2 l3 l4 :
  users (db a) !! u = Some (p, r) →
  Text.nonempty u = true → Text.nonempty p = true →
  Text.strip u = u → Text.strip p = p →
  blank l1 → blank l2 → blank l3 → blank l4 →
  Text.strip (l1 +:+ u +:+ l2) = u ∧
  Text.strip (l3 +:+ p +:+ l4) = p ∧
  logs_in_as u r (handle_login clk (l1 +:+ u +:+ l2) (l3 +:+ p +:+ l4) a).
Proof.
  intros Hstored Hu Hp Hsu Hsp H1 H2 H3 H4.
  assert (Heu := strip_padded l1 l2 u H1 H2 Hsu).
  assert (Hep := strip_padded l3 l4 p H3 H4 Hsp).
  split; [done|]. split; [done|].
  by apply (handle_login_stored clk a u p r).
Qed.

Lemma C10_witness :
  logs_in_as "admin" "Admin"
    (handle_login sample_clock "  admin " "admin   " (new_app amy_db)).
Proof.
  apply (C10_login_strips_input sample_clock (new_app amy_db)
           "admin" "admin" "Admin" "  " " " "" "   ");
    vm_compute; reflexivity.
Defined.

(** C10 as stated, for every stored credential, fails for one that has
    white space at an end of its own: the stored password "pw " is entered
    exactly, is stripped to "pw", and is refused. *)
Lemma C10_counterexample :
  users bob_db !! "bob" = Some ("pw ", "Teacher") ∧
  handle_login sample_clock "bob" "pw " (new_app bob_db)
    = (new_app bob_db, [invalid_credentials]) ∧
  ¬ logs_in_as "bob" "Teacher" (handle_login sample_clock "bob" "pw " (new_app bob_db)).
Proof.
  assert (H : handle_login sample_clock "bob" "pw " (new_app bob_db)
              = (new_app bob_db, [invalid_credentials])) by (vm_compute; reflexivity).
  split; [vm_compute; reflexivity|]. split; [done|].
  rewrite H. intros (_ & _ & Hm). simpl in Hm. discriminate.
Qed.

(** ** Import *)


(** ** Ordering of a page *)

Lemma nocase_compare_antisym a b :
  Text.nocase_compare b a = CompOpp (Text.nocase_compare a b).
Proof.
  revert b. induction a as [|x a IH]; intros [|y b]; simpl; try done.
  rewrite (N.compare_antisym (Text.code (Text.lower x)) (Text.code (Text.lower y))).
  destruct (Text.code (Text.lower x) ?= Text.code (Text.lower y))%N; simpl; auto.
Qed.

Lemma nocase_leb_total a b :
  Text.nocase_leb a b = true ∨ Text.nocase_leb b a = true.
Proof.
  unfold Text.nocase_leb. rewrite (nocase_compare_antisym a b).
  destruct (Text.nocase_compare a b); simpl; auto.
Qed.

Lemma nocase_leb_trans a b c :
  Text.nocase_leb a b = true → Text.nocase_leb b c = true → Text.nocase_leb a c = true.
Proof.
  unfold Text.nocase_leb. revert b c.
  induction a as [|x a IH]; intros [|y b] [|z c]; simpl; try done.
  specialize (IH b c).
  destruct (N.compare_spec (Text.code (Text.lower x)) (Text.code (Text.lower y)));
    destruct (N.compare_spec (Text.code (Text.lower y)) (Text.code (Text.lower z)));
    destruct (N.compare_spec (Text.code (Text.lower x)) (Text.code (Text.lower z)));
    try done; try lia; auto.
Qed.

#[global] Instance name_le_trans : Transitive name_le.
Proof. intros x y z. unfold name_le. apply nocase_leb_trans. Qed.

#[global] Instance name_le_total : Total name_le.
Proof. intros x y. unfold name_le. apply nocase_leb_total. Qed.

Lemma limit_offset_split {A} (limit offset : Z) (l : list A) :
  ∃ before after, l = (before ++ Sql.limit_offset limit offset l ++ after)%list.
Proof.
  unfold Sql.limit_offset. exists (take (Z.to_nat offset) l).
  destruct (limit <? 0).
  - exists []. by rewrite app_nil_r, take_drop.
  - exists (drop (Z.to_nat limit) (drop (Z.to_nat offset) l)).
    by rewrite !take_drop.
Qed.

Lemma nocase_eqb_leb a b :
  Text.nocase_eqb a b = true → Text.nocase_leb b a = true.
Proof.
  unfold Text.nocase_leb, Text.nocase_eqb. rewrite (nocase_compare_antisym a b).
  by destruct (Text.nocase_compare a b).
Qed.

(** Sorted lists: filtering, positions, and the scan by rowid. *)
Lemma StronglySorted_filter {A} (R : relation A) (P : A → Prop)
    `{!∀ x, Decision (P x)} (l : list A) :
  StronglySorted R l → StronglySorted R (filter P l).
Proof.
  induction 1 as [|x l Hl IH Hx]; [constructor|].
  rewrite filter_cons. case_decide; [|done].
  constructor; [done|]. apply Forall_forall. intros y [_ Hy]%list_elem_of_filter.
  by eapply Forall_forall in Hx.
Qed.

Lemma StronglySorted_lookup {A} (R : relation A) (l : list A) i j x y :
  StronglySorted R l → l !! i = Some x → l !! j = Some y → (i < j)%nat → R x y.
Proof.
  intros Hl. revert i j. induction Hl as [|z l Hl IH Hz]; intros i j Hi Hj Hlt.
  - by rewrite lookup_nil in Hi.
  - destruct j as [|j]; [lia|]. destruct i as [|i].
    + simpl in Hi, Hj. injection Hi as ->.
      eapply Forall_forall in Hz; [done|]. by eapply list_elem_of_lookup_2.
    + simpl in Hi, Hj. apply (IH i j); [done..|lia].
Qed.

#[global] Instance id_le_trans : Transitive id_le.
Proof. intros x y z. unfold id_le. lia. Qed.

#[global] Instance id_le_total : Total id_le.
Proof. intros x y. unfold id_le. lia. Qed.

Lemma rows_by_id_perm (m : gmap Z Student) : rows_by_id m ≡ₚ map_to_list m.
Proof. apply merge_sort_Permutation. Qed.

Lemma rows_by_id_ascending (m : gmap Z Student) :
  StronglySorted (fun x y => x.1 < y.1) (rows_by_id m).
Proof.
  assert (Hs : StronglySorted id_le (rows_by_id m)).
  { apply Sorted_StronglySorted; [apply id_le_trans|].
    apply (Sorted_merge_sort id_le). }
  assert (Hnd : NoDup (rows_by_id m).*1).
  { rewrite rows_by_id_perm. apply NoDup_fst_map_to_list. }
  induction Hs as [|x l Hl IH Hx]; [constructor|].
  rewrite fmap_cons in Hnd. apply NoDup_cons in Hnd as [Hnot Hnd].
  constructor; [by apply IH|].
  apply Forall_forall. intros y Hy.
  eapply Forall_forall in Hx; [|done]. unfold id_le in Hx.
  assert (x.1 ≠ y.1); [|lia].
  intros Heq. apply Hnot. rewrite Heq. apply list_elem_of_fmap. by exists y.
Qed.

(** The sorter: a permutation, sorted by name, equal names in the order of
    delivery. *)
Lemma insert_by_name_perm x l : insert_by_name x l ≡ₚ x :: l.
Proof.
  induction l as [|y l IH]; simpl; [done|].
  case_decide; [done|]. rewrite IH. apply Permutation_swap.
Qed.

Lemma order_by_name_perm l : order_by_name l ≡ₚ l.
Proof.
  induction l as [|x l IH]; simpl; [done|].
  by rewrite insert_by_name_perm, IH.
Qed.

Lemma insert_by_name_before x l :
  Forall (fun y => x.1 < y.1) l →
  StronglySorted row_before l → StronglySorted row_before (insert_by_name x l).
Proof.
  intros Hx Hl. induction Hl as [|y l Hl IH Hy]; simpl.
  - repeat constructor.
  - apply Forall_cons in Hx as [Hxy Hx]. case_decide as Hle.
    + constructor; [by constructor|].
      apply Forall_cons. split; [by split|].
      apply Forall_forall. intros z Hz.
      eapply Forall_forall in Hy; [|done]. eapply Forall_forall in Hx; [|done].
      split; [|done]. etrans; [exact Hle | apply Hy].
    + constructor; [by apply IH|].
      apply Forall_forall. intros z Hz.
      rewrite insert_by_name_perm in Hz. apply elem_of_cons in Hz as [->|Hz].
      * split; [|done]. by destruct (name_le_total x y).
      * by eapply Forall_forall in Hy.
Qed.

Lemma order_by_name_before l :
  StronglySorted (fun x y => x.1 < y.1) l → StronglySorted row_before (order_by_name l).
Proof.
  induction 1 as [|x l Hl IH Hx]; simpl; [constructor|].
  apply insert_by_name_before; [|done].
  apply Forall_forall. intros y Hy. rewrite order_by_name_perm in Hy.
  by eapply Forall_forall in Hx.
Qed.

Lemma sorted_rows_before search m : StronglySorted row_before (sorted_rows search m).
Proof.
  unfold sorted_rows. apply order_by_name_before.
  apply StronglySorted_filter, rows_by_id_ascending.
Qed.

Lemma sorted_rows_perm search m : sorted_rows search m ≡ₚ matching_rows search m.
Proof.
  unfold sorted_rows, matching_rows. rewrite order_by_name_perm.
  by rewrite rows_by_id_perm.
Qed.

Lemma row_before_sorted l : StronglySorted row_before l → StronglySorted name_le l.
Proof.
  induction 1 as [|x l Hl IH Hx]; constructor; [done|].
  eapply Forall_impl; [done|]. by intros y [? _].
Qed.

Lemma row_before_ties l : StronglySorted row_before l → ties_by_id l.
Proof.
  intros Hl i j x y Hi Hj Hlt Heq.
  destruct (StronglySorted_lookup _ _ _ _ _ _ Hl Hi Hj Hlt) as [_ Hid].
  apply Hid. by apply nocase_eqb_leb.
Qed.

Lemma fetch_page_before a page : StronglySorted row_before (fetch_page a page).
Proof.
  unfold fetch_page.
  destruct (limit_offset_split (page_size a) (Z.max 0 page * page_size a)
              (sorted_rows (search_text a) (table a))) as (before & after & Hl).
  pose proof (sorted_rows_before (search_text a) (table a)) as Hs.
  rewrite Hl in Hs.
  by apply StronglySorted_app_1_r, StronglySorted_app_1_l in Hs.
Qed.

Lemma matching_rows_blank search (m : gmap Z Student) :
  Text.strip search = "" → matching_rows search m = map_to_list m.
Proof.
  intros H. unfold matching_rows, matches. rewrite H. simpl.
  induction (map_to_list m) as [|x l IH]; [done|].
  rewrite filter_cons_True by done. by rewrite IH.
Qed.

Lemma py_lower_is_lower c :
  (Text.code c <? 128)%N = true → Text.py_lower c = Text.lower c.
Proof.
  destruct c as [[] [] [] [] [] [] [] []]; intros H;
    first [reflexivity | vm_compute in H; discriminate H].
Qed.

Lemma caseless_compare_ascii a b :
  ascii_only a = true → ascii_only b = true →
  caseless_compare a b = Text.nocase_compare a b.
Proof.
  unfold caseless_compare, ascii_only. revert b.
  induction a as [|x a IH]; intros [|y b]; simpl; try done.
  intros [Hx Ha]%andb_true_iff [Hy Hb]%andb_true_iff.
  rewrite (py_lower_is_lower x Hx), (py_lower_is_lower y Hy), IH by done. done.
Qed.

Lemma ascii_rows_ordered_ignoring_case rows :
  (∀ x, x ∈ rows → ascii_only (name x.2) = true) →
  StronglySorted row_before rows →
  StronglySorted caseless_le rows ∧ caseless_ties_by_id rows.
Proof.
  intros Hascii Hs. split.
  - induction Hs as [|x l Hl IH Hx]; constructor.
    + apply IH. intros y Hy. apply Hascii. by right.
    + apply Forall_forall. intros y Hy.
      eapply Forall_forall in Hx as [Hle _]; [|done].
      unfold caseless_le. rewrite caseless_compare_ascii.
      * unfold name_le, Text.nocase_leb in Hle.
        by destruct (Text.nocase_compare (name x.2) (name y.2)).
      * apply Hascii. by left.
      * apply Hascii. by right.
  - intros i j x y Hi Hj Hlt Heq.
    apply (row_before_ties rows Hs i j x y Hi Hj Hlt).
    rewrite caseless_compare_ascii in Heq.
    + unfold Text.nocase_eqb. by rewrite Heq.
    + apply Hascii. by eapply list_elem_of_lookup_2.
    + apply Hascii. by eapply list_elem_of_lookup_2.
Qed.

(** C5, as the code has it.  Whatever the search text and the page, the
    rows of a page are rows of the table that match, in an order in which
    names never decrease under SQLite's NOCASE, and rows whose names are
    equal under NOCASE stand in ascending order of id.  NOCASE ignores the
    case of the ASCII letters only: where the names on the page are ASCII
    the order is the case-insensitive one of the specification, ties by id
    included.  On the first page, for a page size above zero, every row has
    a name at or before that of every matching row left out; with no search
    text, page size 2 and five students the first page has exactly two rows,
    so these carry the two alphabetically first names. *)
Theorem C5_page_is_ordered_by_nocase_name_then_id a page :
  let rows := fetch_page a page in
  StronglySorted name_le rows ∧
  ties_by_id rows ∧
  ((∀ x, x ∈ rows → ascii_only (name x.2) = true) →
     StronglySorted caseless_le rows ∧ caseless_ties_by_id rows) ∧
  (∀ x, x ∈ rows →
     table a !! x.1 = Some x.2 ∧ matches (search_text a) x = true) ∧
  (page ≤ 0 → 0 < page_size a →
     ∀ x y, x ∈ rows → y ∈ matching_rows (search_text a) (table a) → y ∉ rows →
       name_le x y) ∧
  (page ≤ 0 → page_size a = 2 → Text.strip (search_text a) = "" →
     size (table a) = 5%nat → length rows = 2%nat).
Proof.
  intros rows. subst rows.
  pose proof (fetch_page_before a page) as Hb.
  pose proof (sorted_rows_perm (search_text a) (table a)) as Hperm.
  pose proof (row_before_sorted _ (sorted_rows_before (search_text a) (table a))) as Hss.
  split; [by apply row_before_sorted|]. split; [by apply row_before_ties|].
  split; [intros Hascii; by apply ascii_rows_ordered_ignoring_case|].
  unfold fetch_page. split; [|split].
  - intros x Hx.
    assert (Hin : x ∈ matching_rows (search_text a) (table a)).
    { rewrite <- Hperm.
      destruct (limit_offset_split (page_size a) (Z.max 0 page * page_size a)
                  (sorted_rows (search_text a) (table a))) as (before & after & Hl).
      rewrite Hl. apply elem_of_app. right. apply elem_of_app. by left. }
    unfold matching_rows in Hin. apply list_elem_of_filter in Hin as [Hm Hin].
    split; [|done]. apply elem_of_map_to_list. by destruct x.
  - intros Hpage Hps x y Hx Hy Hny.
    replace (Z.max 0 page * page_size a) with 0 in * by lia.
    unfold Sql.limit_offset in *.
    destruct (Z.ltb_spec (page_size a) 0) as [|_]; [lia|].
    simpl in *. rewrite <- Hperm in Hy.
    rewrite <- (take_drop (Z.to_nat (page_size a))
                  (sorted_rows (search_text a) (table a))) in Hy, Hss.
    apply elem_of_app in Hy as [Hy|Hy]; [done|].
    by eapply StronglySorted_app_1_elem_of.
  - intros Hpage Hps Hblank Hsize.
    replace (Z.max 0 page * page_size a) with 0 by lia.
    unfold Sql.limit_offset. rewrite Hps. simpl.
    change (Z.to_nat 0) with 0%nat. rewrite drop_0.
    rewrite length_take, Hperm, matching_rows_blank by done.
    rewrite length_map_to_list, Hsize. done.
Qed.

(** With the five students and page size two the first page holds alice
    and Bob, in the case-insensitive order of their ASCII names; of "amy"
    (id 1) and "Amy" (id 2) the row with id 1 comes first. *)
Lemma C5_witness :
  fetch_page five_app 0 = alice_and_bob ∧
  length (fetch_page five_app 0) = 2%nat ∧
  StronglySorted caseless_le (fetch_page five_app 0) ∧
  fetch_page (new_app amy_twice_db) 0 = small_first ∧
  ties_by_id (fetch_page (new_app amy_twice_db) 0).
Proof.
  destruct (C5_page_is_ordered_by_nocase_name_then_id five_app 0)
    as (_ & _ & Hcase & _ & _ & Hlen).
  destruct (C5_page_is_ordered_by_nocase_name_then_id (new_app amy_twice_db) 0)
    as (_ & Hties & _).
  split; [vm_compute; reflexivity|].
  split; [apply Hlen; [lia | reflexivity | reflexivity | vm_compute; reflexivity]|].
  split; [|split; [vm_compute; reflexivity | exact Hties]].
  apply Hcase. intros x Hx.
  assert (Hpage : fetch_page five_app 0 = alice_and_bob) by (vm_compute; reflexivity).
  rewrite Hpage in Hx. unfold alice_and_bob in Hx.
  repeat (apply elem_of_cons in Hx as [->|Hx]; [reflexivity|]).
  by apply elem_of_nil in Hx.
Defined.

(** C5 as stated fails for letters beyond ASCII.  The capital E with acute
    accent and the small one differ in case only, yet NOCASE does not fold
    them and puts the capital (code point 201) before the small one (233).
    So the row named with the capital and a following b comes before the
    row named with the small letter and a following a, against the
    case-insensitive order; and of the two rows named with the letter alone,
    equal when case is ignored, the one with the larger id comes first. *)
Lemma C5_counterexample :
  fetch_page (new_app accents_db) 0 = capitals_first ∧
  caseless_compare (String E_acute "b") (String e_acute "a") = Gt ∧
  caseless_compare (String E_acute "") (String e_acute "") = Eq ∧
  ¬ StronglySorted caseless_le (fetch_page (new_app accents_db) 0) ∧
  ¬ caseless_ties_by_id (fetch_page (new_app accents_db) 0).
Proof.
  assert (Hpage : fetch_page (new_app accents_db) 0 = capitals_first)
    by (vm_compute; reflexivity).
  split; [done|]. split; [vm_compute; reflexivity|]. split; [vm_compute; reflexivity|].
  rewrite Hpage. split.
  - intros Hs.
    pose proof (StronglySorted_lookup _ _ 1%nat 3%nat _ _ Hs eq_refl eq_refl ltac:(lia)) as H.
    apply H. vm_compute. reflexivity.
  - intros H.
    specialize (H 0%nat 2%nat _ _ eq_refl eq_refl ltac:(lia)).
    simpl in H. assert (4 < 3); [|lia]. apply H. vm_compute. reflexivity.
Qed.

(** * The rest of the application *)

(** ** Every handler writes through the same few statements *)

Lemma audit_writes clk act det a : rtc db_write (db a) (db (audit clk act det a)).
Proof. apply rtc_once. unfold audit. simpl. constructor. Qed.

Lemma build_main_ui_writes clk a : rtc db_write (db a) (db (build_main_ui clk a)).
Proof.
  unfold build_main_ui.
  pose proof (load_page_db 0 (set_search_text "" a)) as Hdb.
  destruct (load_page 0 (set_search_text "" a)) as [a1 [e|]]; simpl in Hdb.
  - rewrite Hdb. done.
  - etrans; [|apply audit_writes]. by rewrite Hdb.
Qed.

Lemma handle_login_writes clk u p a : rtc db_write (db a) (db (handle_login clk u p a).1).
Proof.
  unfold handle_login. case_match; [done|].
  destruct (Sql.select_role _ _ (db a)); [|done]. simpl.
  etrans; [|apply build_main_ui_writes].
  apply (audit_writes clk a_login _ (set_session _ _ a)).
Qed.

Lemma login_as_guest_writes clk a : rtc db_write (db a) (db (login_as_guest clk a)).
Proof.
  unfold login_as_guest. etrans; [|apply build_main_ui_writes].
  apply (audit_writes clk a_login _ (set_session _ _ a)).
Qed.

Lemma logout_writes clk c a : rtc db_write (db a) (db (logout clk c a)).
Proof. unfold logout. destruct c; [|done]. apply audit_writes. Qed.

Lemma add_student_writes clk f a : rtc db_write (db a) (db (add_student clk f a).1).
Proof.
  unfold add_student. destruct (validate_form f) as [[]|]; simpl; [|done..].
  destruct (Sql.insert_student _ _ _ _ _ (db a)) as [[]|d] eqn:E; try done.
  rewrite reload_and_report_db. simpl.
  eapply rtc_l; [by eapply w_insert|]. apply rtc_once. constructor.
Qed.

Lemma update_student_writes clk sel f a :
  rtc db_write (db a) (db (update_student clk sel f a).1).
Proof.
  unfold update_student. destruct sel as [row|]; [|done].
  destruct (validate_form f) as [[]|]; simpl; [|done..].
  destruct (Sql.update_student _ _ _ _ _ (db a)) as [[]|d] eqn:E; try done.
  rewrite reload_and_report_db. simpl.
  eapply rtc_l; [by eapply w_update|]. apply rtc_once. constructor.
Qed.

Lemma delete_student_writes clk sel c a :
  rtc db_write (db a) (db (delete_student clk sel c a).1).
Proof.
  unfold delete_student. destruct sel as [row|]; [|done].
  case_bool_decide; [done|]. destruct c; simpl; [|done].
  destruct (Sql.select_by_id (row_id row) (db a)); [|done].
  rewrite reload_and_report_db. simpl.
  eapply rtc_l; [apply (w_delete_by_id (row_id row))|]. apply rtc_once. constructor.
Qed.

Lemma undo_write_writes clk e a a1 :
  undo_write clk e a = inr a1 → rtc db_write (db a) (db a1).
Proof.
  unfold undo_write. destruct e as [r|sid old|sid row].
  - intros [= <-]. simpl.
    eapply rtc_l; [apply (w_delete_by_roll r)|]. apply rtc_once. constructor.
  - destruct (Sql.update_student _ _ _ _ _ (db a)) as [x|d] eqn:E; [done|].
    intros [= <-]. simpl.
    eapply rtc_l; [by eapply w_update|]. apply rtc_once. constructor.
  - destruct (Sql.insert_student_with_id _ _ (db a)) as [x|d] eqn:E; [done|].
    intros [= <-]. simpl.
    eapply rtc_l; [by eapply w_insert_with_id|]. apply rtc_once. constructor.
Qed.

Lemma undo_action_writes clk a : rtc db_write (db a) (db (undo_action clk a).1).
Proof.
  unfold undo_action. destruct (undo_stack a) as [|e rest] eqn:Htop; [done|].
  destruct (undo_write clk e (set_undo_stack rest a)) as [x|a1] eqn:Hw; [done|].
  pose proof (load_page_db (current_page a1) a1) as Hdb.
  destruct (load_page (current_page a1) a1) as [a2 [x|]]; simpl in *;
    rewrite Hdb; apply (undo_write_writes clk e (set_undo_stack rest a) a1 Hw).
Qed.

Lemma import_row_writes series_text clk cols i r st :
  rtc db_write st.1 (import_row series_text clk cols i r st).1.
Proof.
  unfold import_row. repeat case_match; try done.
  simpl. apply rtc_once. by eapply w_insert.
Qed.

Lemma import_rows_writes series_text clk cols i rs st :
  rtc db_write st.1 (import_rows series_text clk cols i rs st).1.
Proof.
  revert i st. induction rs as [|r rs IH]; simpl; intros i st; [done|].
  etrans; [apply (import_row_writes series_text clk cols i r) | apply IH].
Qed.

Lemma import_file_writes series_text clk path df a :
  rtc db_write (db a) (db (import_file series_text clk path df a).1).
Proof.
  unfold import_file.
  destruct (Text.nonempty path); simpl; [|done].
  destruct (has_expected (normalise (columns df))); simpl; [|done].
  pose proof (import_rows_writes series_text clk (normalise (columns df)) 0
                (records df) (db a, 0)) as E.
  destruct (import_rows _ _ _ _ (records df) (db a, 0)) as [d n]. simpl in E.
  match goal with |- context [load_page 0 ?x] =>
    pose proof (load_page_db 0 x) as Hdb; destruct (load_page 0 x) as [a2 [e|]] end;
    simpl in *; rewrite Hdb; simpl;
    (etrans; [exact E|]); apply rtc_once; constructor.
Qed.

Lemma step_writes a a' : step a a' → rtc db_write (db a) (db a').
Proof.
  destruct 1.
  - apply handle_login_writes.
  - apply login_as_guest_writes.
  - apply logout_writes.
  - apply add_student_writes.
  - apply update_student_writes.
  - apply delete_student_writes.
  - apply undo_action_writes.
  - by rewrite redo_action_db.
  - unfold search_key_release. by rewrite load_page_db.
  - unfold clear_search. by rewrite load_page_db.
  - unfold prev_page. case_match; [by rewrite load_page_db | done].
  - unfold next_page. repeat case_match; try done. by rewrite load_page_db.
  - unfold apply_page_size. case_match; [done|].
    pose proof (load_page_db 0 a) as Hdb.
    destruct (load_page 0 a) as [a2 [e|]]; simpl in *; by rewrite Hdb.
  - apply audit_writes.
  - apply import_file_writes.
  - apply audit_writes.
Qed.

Lemma run_writes a a' : rtc step a a' → rtc db_write (db a) (db a').
Proof.
  induction 1 as [|a b c Hab _ IH]; [done|].
  etrans; [by apply step_writes | done].
Qed.

(** ** Invariants of a run *)

Lemma db_write_unique d d' :
  db_write d d' → roll_unique (students d) → roll_unique (students d').
Proof.
  destruct 1; intros U; simpl; try done.
  - by eapply insert_student_unique.
  - by eapply insert_student_with_id_unique.
  - by eapply update_student_unique.
  - by apply delete_by_id_unique.
  - by apply delete_by_roll_unique.
Qed.

Lemma db_write_audit d d' :
  db_write d d' →
  audit_log d `prefix_of` audit_log d' ∧ users d' = users d.
Proof.
  destruct 1 as [clk u r act det d|n r c mk now d d' H|i s d d' H|n r c mk i d d' H|i d|r d];
    simpl; try done.
  - split; [by apply prefix_app_r | done].
  - unfold Sql.insert_student in H. case_match; simplify_eq. done.
  - unfold Sql.insert_student_with_id in H. repeat case_match; simplify_eq. done.
  - unfold Sql.update_student in H. repeat case_match; simplify_eq; done.
Qed.

Lemma db_write_ids d d' :
  db_write d d' → ids_bounded d →
  ids_bounded d' ∧ sqlite_sequence d ≤ sqlite_sequence d'.
Proof.
  unfold ids_bounded.
  destruct 1 as [clk u r act det d|n r c mk now d d' H|i s d d' H|n r c mk i d d' H|i d|r d];
    intros B; simpl.
  - done.
  - unfold Sql.insert_student in H. case_match; simplify_eq. simpl.
    unfold Sql.next_id. split; [|lia].
    intros j t Hj. apply lookup_insert_Some in Hj as [[<- _]|[_ Hj]]; [lia|].
    apply B in Hj. lia.
  - unfold Sql.insert_student_with_id in H. repeat case_match; simplify_eq. simpl.
    split; [|lia].
    intros j t Hj. apply lookup_insert_Some in Hj as [[<- _]|[_ Hj]]; [lia|].
    apply B in Hj. lia.
  - unfold Sql.update_student in H.
    destruct (students d !! i) as [old|] eqn:Hi; [|by simplify_eq].
    case_match; simplify_eq. simpl. split; [|lia].
    intros j t Hj. apply lookup_insert_Some in Hj as [[<- _]|[_ Hj]]; by eapply B.
  - split; [|lia]. intros j t Hj.
    apply lookup_delete_Some in Hj as [_ Hj]. by eapply B.
  - split; [|lia]. intros j t Hj.
    apply map_lookup_filter_Some in Hj as [Hj _]. by eapply B.
Qed.

Lemma writes_unique d d' :
  rtc db_write d d' → roll_unique (students d) → roll_unique (students d').
Proof. induction 1; eauto using db_write_unique. Qed.

Lemma writes_audit d d' :
  rtc db_write d d' → audit_log d `prefix_of` audit_log d' ∧ users d' = users d.
Proof.
  induction 1 as [|d1 d2 d3 H12 _ [IHp IHu]]; [done|].
  destruct (db_write_audit _ _ H12) as [Hp Hu].
  split; [by etrans | congruence].
Qed.

Lemma writes_ids d d' :
  rtc db_write d d' → ids_bounded d →
  ids_bounded d' ∧ sqlite_sequence d ≤ sqlite_sequence d'.
Proof.
  induction 1 as [|d1 d2 d3 H12 _ IH]; intros B; [split; [done|lia]|].
  destruct (db_write_ids _ _ H12 B) as [B2 Hle].
  destruct (IH B2) as [B3 Hle']. split; [done|lia].
Qed.

(** X1.  Whatever the user does (log in or out, add, update, delete, undo,
    redo, search, page, import, back up), a table whose rolls are distinct
    keeps them distinct. *)
Theorem run_keeps_rolls_unique a a' :
  rtc step a a' → roll_unique (table a) → roll_unique (table a').
Proof. intros Hrun. unfold table. by apply writes_unique, run_writes. Qed.

Lemma run_keeps_rolls_unique_witness : roll_unique (table cy_imported).
Proof.
  apply (run_keeps_rolls_unique amy_app cy_imported).
  - eapply rtc_l; [apply (step_add sample_clock (mkForm "Bea" "2" "CS" "80"))|].
    eapply rtc_l;
      [apply (step_update sample_clock
                (Some (mkTreeRow 2 "Bea" "2" "CS" 80 "2024-05-01 09:00:00"))
                (mkForm "Bea" "3" "CS" "80"))|].
    apply rtc_once. apply (step_import no_series sample_clock "cy.csv" cy_file).
  - rewrite amy_app_table. apply roll_unique_singleton.
Defined.

(** X2.  No action of a run changes or removes an entry of the audit log:
    the log at the start is a prefix of the log at the end.  Nor does any
    action touch the table of users. *)
Theorem run_only_appends_to_audit_log a a' :
  rtc step a a' →
  audit_log (db a) `prefix_of` audit_log (db a') ∧ users (db a') = users (db a).
Proof. intros Hrun. by apply writes_audit, run_writes. Qed.

Lemma run_only_appends_to_audit_log_witness :
  audit_log (db amy_app) `prefix_of` audit_log (db bea_added).
Proof.
  apply (run_only_appends_to_audit_log amy_app bea_added).
  apply rtc_once. apply (step_add sample_clock (mkForm "Bea" "2" "CS" "80")).
Defined.

(** X3.  Ids are not given twice.  Along a run the AUTOINCREMENT counter
    never goes down and bounds every id in the table, so the id the next Add
    would give is above every id the table held at any earlier point of the
    run, deleted since or not. *)
Theorem run_never_reuses_an_id a a' :
  rtc step a a' → ids_bounded (db a) →
  ids_bounded (db a') ∧
  sqlite_sequence (db a) ≤ sqlite_sequence (db a') ∧
  (∀ i s, table a !! i = Some s → i < Sql.next_id (db a')).
Proof.
  intros Hrun B. destruct (writes_ids _ _ (run_writes _ _ Hrun) B) as [B' Hle].
  split; [done|]. split; [done|].
  intros i s Hi. apply B in Hi. unfold Sql.next_id. lia.
Qed.

Lemma run_never_reuses_an_id_witness :
  let a' := (delete_student sample_clock (Some amy_row) true amy_app).1 in
  table a' = ∅ ∧ 1 < Sql.next_id (db a').
Proof.
  split; [vm_compute; reflexivity|].
  eapply (run_never_reuses_an_id amy_app).
  - apply rtc_once. apply (step_delete sample_clock (Some amy_row) true).
  - intros i s Hi. change (students (db amy_app)) with (table amy_app) in Hi.
    rewrite amy_app_table in Hi.
    apply lookup_singleton_Some in Hi as [<- _]. vm_compute. discriminate.
  - vm_compute. reflexivity.
Defined.

(** ** Add *)

Lemma rstrip_idem s : Text.rstrip (Text.rstrip s) = Text.rstrip s.
Proof.
  induction s as [|c s IH]; simpl; [done|].
  destruct (Text.rstrip s) as [|d r] eqn:E.
  - destruct (Text.isspace c) eqn:Hc; simpl; [done|]. by rewrite Hc.
  - simpl in *. by rewrite IH.
Qed.

Lemma lstrip_head s :
  Text.lstrip s = "" ∨ ∃ c r, Text.lstrip s = String c r ∧ Text.isspace c = false.
Proof.
  induction s as [|c s IH]; simpl; [by left|].
  destruct (Text.isspace c) eqn:Hc; [done|]. right. by exists c, s.
Qed.

Lemma strip_idem s : Text.strip (Text.strip s) = Text.strip s.
Proof.
  unfold Text.strip. destruct (lstrip_head s) as [->|(c & r & -> & Hc)]; [reflexivity|].
  assert (Hl : Text.lstrip (Text.rstrip (String c r)) = Text.rstrip (String c r)).
  { simpl. destruct (Text.rstrip r); rewrite ?Hc; simpl; by rewrite Hc. }
  by rewrite Hl, rstrip_idem.
Qed.

Lemma nonempty_true s : Text.nonempty s = true → s ≠ "".
Proof. by destruct s. Qed.

Lemma marks_ok_range m :
  marks_ok m = Some true → 0 ≤ Text.int_of_digits m ≤ 100.
Proof.
  unfold marks_ok. destruct (Text.isdigit m); simpl; [|done].
  unfold Text.int. case_match; simpl; [|done].
  intros [= Hall]. apply andb_true_iff in Hall as [H0 H100]. lia.
Qed.

Lemma isalpha_letter c : Text.isalpha c = true → letter_code (Text.code c).
Proof.
  unfold Text.isalpha, Text.isupper, Text.islower, Text.in_range, letter_code.
  rewrite !orb_true_iff, !andb_true_iff, !N.leb_le, !N.eqb_eq. lia.
Qed.

Lemma in_space_dot_hyphen_codes c :
  Text.in_space_dot_hyphen c = true →
  (Text.code c = 32 ∨ Text.code c = 45 ∨ Text.code c = 46)%N.
Proof.
  unfold Text.in_space_dot_hyphen. rewrite !orb_true_iff, !N.eqb_eq. lia.
Qed.

Lemma isdigit_char_digit c : Text.isdigit_char c = true → digit_code (Text.code c).
Proof.
  unfold Text.isdigit_char, Text.isdecimal_char, Text.in_range, digit_code.
  rewrite !orb_true_iff, !andb_true_iff, !N.leb_le, !N.eqb_eq. lia.
Qed.

Lemma name_ok_codes n :
  name_ok n = true →
  n ≠ "" ∧
  Forall (fun k => letter_code k ∨ k = 32%N ∨ k = 45%N ∨ k = 46%N) (codes n).
Proof.
  unfold name_ok. intros [Hne Hall]%andb_true_iff.
  split; [by apply nonempty_true|]. clear Hne.
  apply negb_true_iff in Hall. unfold codes.
  induction n as [|c n IH]; simpl in *; [constructor|].
  apply orb_false_iff in Hall as [Hc Hn]. apply negb_false_iff in Hc.
  constructor; [|by apply IH].
  apply orb_true_iff in Hc as [Hc|Hc].
  - left. by apply isalpha_letter.
  - right. by apply in_space_dot_hyphen_codes.
Qed.

Lemma roll_ok_codes r :
  roll_ok r = true →
  (1 ≤ String.length r ≤ 12)%nat ∧ Forall digit_code (codes r).
Proof.
  unfold roll_ok, Text.isdigit.
  intros [[Hne [_ Hall]%andb_true_iff]%andb_true_iff Hlen]%andb_true_iff.
  apply negb_true_iff, Z.ltb_ge in Hlen.
  split; [destruct r; [done|]; simpl in *; lia|].
  clear Hne Hlen. unfold codes.
  induction r as [|c r IH]; simpl in *; [constructor|].
  apply andb_true_iff in Hall as [Hc Hr].
  constructor; [by apply isdigit_char_digit | by apply IH].
Qed.

Lemma validate_form_valid clk f :
  validate_form f = Some true → within_rules (student_of_form clk f).
Proof.
  unfold validate_form, within_rules, student_of_form, new_of_form. simpl.
  destruct (marks_ok (Text.strip (m_marks f))) as [mk|] eqn:Hm; simpl; [|done].
  intros [= Hall]. revert Hall.
  rewrite !andb_true_iff. intros (((Hn & Hr) & Hc) & ->).
  apply name_ok_codes in Hn as [Hn1 Hn2]. apply roll_ok_codes in Hr as [Hr1 Hr2].
  apply marks_ok_range in Hm.
  split_and!; try done; try lia. by apply nonempty_true.
Qed.

(** X4.  A valid Add whose roll is free creates exactly one row: it stands
    under an id above every id in the table, holds the stripped fields of
    the form and the marks as a number, is within the rules of the form,
    carries no white space around its text fields, and no other row is
    touched. *)
Theorem add_student_creates_one_row clk f a :
  validate_form f = Some true →
  Sql.roll_taken (Text.strip (m_roll f)) (table a) = false →
  let i := Sql.next_id (db a) in
  let s := student_of_form clk f in
  let a' := (add_student clk f a).1 in
  table a !! i = None ∧
  table a' !! i = Some s ∧
  (∀ j t, table a !! j = Some t → j < i ∧ table a' !! j = Some t) ∧
  (∀ j, j ≠ i → table a' !! j = table a !! j) ∧
  size (table a') = S (size (table a)) ∧
  within_rules s ∧
  Text.strip (name s) = name s ∧ Text.strip (roll s) = roll s ∧
  Text.strip (course s) = course s.
Proof.
  intros Hv Hf i s a'.
  destruct (add_student_fresh clk f a Hv Hf) as (Ht & _).
  fold a' in Ht. fold i in Ht. fold s in Ht.
  assert (Hnone : table a !! i = None) by apply next_id_fresh.
  split; [done|]. split; [rewrite Ht; apply lookup_insert_eq|].
  split; [|split; [|split; [|split]]].
  - intros j t Hj. assert (j < i).
    { apply largest_rowid_ge in Hj. unfold i, Sql.next_id, table in *. lia. }
    split; [done|]. rewrite Ht, lookup_insert_ne by lia. done.
  - intros j Hj. by rewrite Ht, lookup_insert_ne.
  - rewrite Ht. by apply map_size_insert_None.
  - by apply validate_form_valid.
  - unfold s, student_of_form, new_of_form. simpl. by rewrite !strip_idem.
Qed.

Lemma add_student_creates_one_row_witness :
  table (add_student sample_clock (mkForm " Bea " "2" "CS" " 80") amy_app).1 !! 2
  = Some (mkStudent "Bea" "2" "CS" 80 "2024-05-01 09:00:00").
Proof.
  destruct (add_student_creates_one_row sample_clock
              (mkForm " Bea " "2" "CS" " 80") amy_app) as (_ & Hrow & _);
    [vm_compute; reflexivity | vm_compute; reflexivity | exact Hrow].
Defined.

(** ** Undo after Add and after Update *)

Lemma student_eta s :
  mkStudent (name s) (roll s) (course s) (marks s) (created_at s) = s.
Proof. by destruct s. Qed.

(** X5.  Add, then undo: a valid Add whose roll was free is taken back in
    full.  The table is the one before the Add, the undo stack is as it
    was, and the redo stack holds the one entry of this undo. *)
Theorem add_then_undo_restores_table clk1 clk2 f a :
  validate_form f = Some true →
  Sql.roll_taken (Text.strip (m_roll f)) (table a) = false →
  let a1 := (add_student clk1 f a).1 in
  let a2 := (undo_action clk2 a1).1 in
  table a2 = table a ∧
  undo_stack a2 = undo_stack a ∧
  redo_stack a2 = [R_insert (Text.strip (m_roll f))].
Proof.
  intros Hv Hf a1 a2.
  destruct (add_student_fresh clk1 f a Hv Hf) as (Ht & Hu & Hr & _).
  fold a1 in Ht, Hu, Hr.
  pose proof (undo_delete_table clk2 a1 _ _ Hu) as Ht2. fold a2 in Ht2.
  destruct (undo_action_written clk2 a1 _ _
              (set_redo_stack (R_insert (Text.strip (m_roll f)) :: redo_stack a1)
                 (audit clk2 a_undo_delete (d_text (Text.strip (m_roll f)))
                    (set_db (Sql.delete_by_roll (Text.strip (m_roll f)) (db a1))
                       (set_undo_stack (undo_stack a) a1))))
              Hu eq_refl) as (_ & Hu2 & Hr2).
  fold a2 in Hu2, Hr2. split; [|split].
  - rewrite Ht2, Ht.
    rewrite map_filter_insert_False by (simpl; intros H; by apply H).
    rewrite delete_id by apply next_id_fresh.
    apply map_filter_id. intros i s Hi. simpl. by eapply roll_taken_false.
  - by rewrite Hu2.
  - rewrite Hr2. simpl. by rewrite Hr.
Qed.

Lemma add_then_undo_restores_table_witness :
  table (undo_action sample_clock bea_added).1 = table amy_app.
Proof.
  apply (add_then_undo_restores_table sample_clock sample_clock
           (mkForm "Bea" "2" "CS" "80") amy_app); vm_compute; reflexivity.
Defined.

(** X6.  Update, then undo: when the selected row shows what the table
    holds under its id, a valid Update whose roll no other row carries is
    taken back in full by the undo that follows, the rolls of the table being
    distinct. *)
Theorem update_then_undo_restores_table clk1 clk2 row f a s :
  roll_unique (table a) →
  table a !! row_id row = Some s →
  shows row s →
  validate_form f = Some true →
  Sql.roll_taken (Text.strip (m_roll f)) (delete (row_id row) (table a)) = false →
  let a1 := (update_student clk1 (Some row) f a).1 in
  let a2 := (undo_action clk2 a1).1 in
  table a1 !! row_id row
    = Some (mkStudent (Text.strip (m_name f)) (Text.strip (m_roll f))
              (Text.strip (m_course f)) (Text.int_of_digits (Text.strip (m_marks f)))
              (created_at s)) ∧
  table a2 = table a ∧
  undo_stack a2 = undo_stack a.
Proof.
  intros U Hrow (Hn & Hr & Hc & Hm) Hv Hfree a1 a2.
  destruct (update_student_stored clk1 row f a s Hrow Hv Hfree) as (Ht & Hu & _).
  fold a1 in Ht, Hu. simpl in Ht.
  split; [rewrite Ht; apply lookup_insert_eq|].
  assert (Hw : ∃ a', undo_write clk2 (U_update (row_id row) (old_of_row row))
                       (set_undo_stack (undo_stack a) a1) = inr a' ∧
                     table a' = table a ∧ undo_stack a' = undo_stack a).
  { unfold undo_write, Sql.update_student. simpl.
    unfold table in *. rewrite Ht, lookup_insert_eq.
    rewrite delete_insert_eq, Hr.
    rewrite (roll_free_after_delete _ _ _ U Hrow).
    eexists. split; [done|]. simpl. split; [|done].
    rewrite insert_insert_eq, ?Hn, ?Hr, ?Hc, ?Hm, student_eta. by apply insert_id. }
  destruct Hw as (a' & Hw & Ht' & Hu').
  destruct (undo_action_written clk2 a1 _ _ a' Hu Hw) as (Hdb & Hun & _).
  fold a2 in Hdb, Hun. unfold table in *. by rewrite Hdb, Hun.
Qed.

Lemma update_then_undo_restores_table_witness :
  table (undo_action sample_clock
           (update_student sample_clock (Some amy_row)
              (mkForm "Amy Lee" "9" "EE" "95") amy_app).1).1
  = table amy_app.
Proof.
  apply (update_then_undo_restores_table sample_clock sample_clock amy_row
           (mkForm "Amy Lee" "9" "EE" "95") amy_app amy).
  - rewrite amy_app_table. apply roll_unique_singleton.
  - vm_compute. reflexivity.
  - repeat split.
  - vm_compute. reflexivity.
  - vm_compute. reflexivity.
Defined.

(** X7.  Update of a stored row with a valid form either writes all four
    fields and keeps the id and created_at, or, when another row carries the
    new roll, writes nothing and says "Roll conflicts with another record".
    The row's own roll is no conflict: an update that keeps the roll goes
    through. *)
Theorem update_student_writes_or_conflicts clk row f a s :
  table a !! row_id row = Some s →
  validate_form f = Some true →
  let r := Text.strip (m_roll f) in
  let res := update_student clk (Some row) f a in
  ((∃ j t, j ≠ row_id row ∧ table a !! j = Some t ∧ roll t = r) →
     res = (a, [showerror "Error" "Roll conflicts with another record"])) ∧
  ((∀ j t, j ≠ row_id row → table a !! j = Some t → roll t ≠ r) →
     table res.1
       = <[row_id row := mkStudent (Text.strip (m_name f)) r (Text.strip (m_course f))
                           (Text.int_of_digits (Text.strip (m_marks f)))
                           (created_at s)]> (table a) ∧
     size (table res.1) = size (table a) ∧
     (∀ j, j ≠ row_id row → table res.1 !! j = table a !! j)) ∧
  (roll_unique (table a) → r = roll s →
     table res.1 !! row_id row
       = Some (mkStudent (Text.strip (m_name f)) (roll s) (Text.strip (m_course f))
                 (Text.int_of_digits (Text.strip (m_marks f))) (created_at s))).
Proof.
  intros Hrow Hv r res.
  assert (Hfree_iff : (∀ j t, j ≠ row_id row → table a !! j = Some t → roll t ≠ r) →
                      Sql.roll_taken r (delete (row_id row) (table a)) = false).
  { intros H. apply roll_taken_false. intros j t Hj.
    apply lookup_delete_Some in Hj as [Hne Hj]. by eapply H. }
  split; [|split].
  - intros (j & t & Hne & Hj & Hr). apply (update_student_conflict clk row f a s Hrow Hv).
    apply roll_taken_true. exists j, t. split; [|done].
    by apply lookup_delete_Some.
  - intros H. specialize (Hfree_iff H).
    destruct (update_student_stored clk row f a s Hrow Hv Hfree_iff) as (Ht & _).
    fold res in Ht. simpl in Ht. fold r in Ht. split; [done|]. split.
    + rewrite Ht. rewrite map_size_insert_Some; [done|by eexists].
    + intros j Hj. rewrite Ht. by rewrite lookup_insert_ne.
  - intros U Hr.
    assert (Hfree : Sql.roll_taken r (delete (row_id row) (table a)) = false)
      by (rewrite Hr; by apply roll_free_after_delete).
    destruct (update_student_stored clk row f a s Hrow Hv Hfree) as (Ht & _).
    fold res in Ht. simpl in Ht. fold r in Ht.
    rewrite Ht, lookup_insert_eq, Hr. done.
Qed.

Lemma update_student_writes_or_conflicts_witness :
  table (update_student sample_clock (Some amy_row) (mkForm "Amy" "1" "CS" "95") amy_app).1
    !! 1
  = Some (mkStudent "Amy" "1" "CS" 95 "2024-05-01 09:00:00").
Proof.
  destruct (update_student_writes_or_conflicts sample_clock amy_row
              (mkForm "Amy" "1" "CS" "95") amy_app amy) as (_ & _ & Hown);
    [vm_compute; reflexivity | vm_compute; reflexivity |].
  apply Hown; [|reflexivity].
  rewrite amy_app_table. apply roll_unique_singleton.
Defined.

(** ** Delete *)

(** X8.  Delete removes at most the row under the selected id, and only
    when the role is not Guest and the user confirms.  A declined
    confirmation changes nothing and opens no box; a selected id that is not
    in the table (any more) changes nothing, pushes no undo entry, and is
    answered with the text of the TypeError that [dict(None)] raises. *)
Theorem delete_student_removes_only_the_selected_row clk sel confirm a :
  let res := delete_student clk sel confirm a in
  (∀ j, Some j ≠ (row_id <$> sel) → table res.1 !! j = table a !! j) ∧
  table res.1 ⊆ table a ∧
  (confirm = false → current_role a ≠ Some "Guest" → is_Some sel → res = (a, [])) ∧
  (∀ row, sel = Some row → table a !! row_id row = None →
     res.1 = a ∧
     (current_role a ≠ Some "Guest" → confirm = true →
        res.2 = [showerror "Error" "'NoneType' object is not iterable"])) ∧
  (∀ row s, sel = Some row → table a !! row_id row = Some s →
     current_role a ≠ Some "Guest" → confirm = true →
     table res.1 = delete (row_id row) (table a) ∧
     undo_stack res.1 = U_insert (row_id row) s :: undo_stack a ∧
     redo_stack res.1 = []).
Proof.
  intros res. subst res. unfold delete_student.
  destruct sel as [row|]; simpl.
  2: { repeat split; done. }
  destruct (decide (current_role a = Some "Guest")) as [Hg|Hg].
  { rewrite bool_decide_true by done. simpl. repeat split; try done. }
  rewrite bool_decide_false by done.
  destruct confirm; simpl.
  2: { repeat split; try done. }
  unfold Sql.select_by_id.
  destruct (students (db a) !! row_id row) as [s|] eqn:Hrow; simpl.
  - unfold table. rewrite reload_and_report_db, reload_and_report_undo_stack,
      reload_and_report_redo_stack. simpl.
    split; [|split; [|split; [|split]]].
    + intros j Hj. apply lookup_delete_ne. congruence.
    + apply delete_subseteq.
    + done.
    + intros row' [= <-]. by rewrite Hrow.
    + intros row' s' [= <-]. rewrite Hrow. intros [= <-] _ _. done.
  - repeat split; try done; intros; simplify_eq; unfold table in *; congruence.
Qed.

Lemma delete_student_removes_only_the_selected_row_witness :
  (delete_student sample_clock (Some stale_row) true amy_app).1 = amy_app ∧
  table amy_deleted = delete 1 (table amy_app).
Proof.
  destruct (delete_student_removes_only_the_selected_row sample_clock
              (Some stale_row) true amy_app) as (_ & _ & _ & Hmissing & _).
  destruct (delete_student_removes_only_the_selected_row sample_clock
              (Some amy_row) true amy_app) as (_ & _ & _ & _ & Hstored).
  split.
  - apply (Hmissing stale_row); [reflexivity | vm_compute; reflexivity].
  - apply (Hstored amy_row amy);
      [reflexivity | vm_compute; reflexivity | vm_compute; discriminate | reflexivity].
Defined.

(** ** Undo that fails, and undo by a Guest *)

(** X9.  An undo that fails is not kept for another try.  When the entry
    on top would bring back a deleted row whose id or roll is in the table
    again, or would give a row back a roll that another row has taken, the
    write raises IntegrityError: the table stays as it is, "Undo Error" is
    shown, and the entry is gone from the stack; nothing is pushed for
    redo. *)
Theorem failed_undo_discards_its_entry clk a e rest :
  undo_stack a = e :: rest →
  match e with
  | U_insert i s => is_Some (table a !! i) ∨ Sql.roll_taken (roll s) (table a) = true
  | U_update _ old =>
      is_Some (table a !! old_id old) ∧
      Sql.roll_taken (old_roll old) (delete (old_id old) (table a)) = true
  | U_delete _ => False
  end →
  let res := undo_action clk a in
  db res.1 = db a ∧
  undo_stack res.1 = rest ∧
  redo_stack res.1 = redo_stack a ∧
  ∃ column, res.2 = [showerror "Undo Error" ("UNIQUE constraint failed: students." +:+ column)].
Proof.
  intros Htop Hbad res. subst res. unfold undo_action. rewrite Htop.
  destruct e as [r|sid old|i s]; [done| |]; unfold undo_write; simpl.
  - destruct Hbad as [[t Ht] Hroll]. unfold Sql.update_student. unfold table in *.
    simpl. rewrite Ht, Hroll. simpl. repeat split; try done. by exists "roll".
  - unfold Sql.insert_student_with_id. unfold table in *. simpl.
    destruct Hbad as [Hi|Hroll].
    + rewrite bool_decide_true by done. simpl. repeat split; try done. by exists "id".
    + case_bool_decide; simpl; [repeat split; try done; by exists "id"|].
      rewrite Hroll. simpl. repeat split; try done. by exists "roll".
Qed.

Lemma failed_undo_discards_its_entry_witness :
  undo_stack roll_1_retaken = [U_insert 1 amy] ∧
  table (undo_action sample_clock roll_1_retaken).1 = table roll_1_retaken ∧
  undo_stack (undo_action sample_clock roll_1_retaken).1 = [].
Proof.
  destruct (failed_undo_discards_its_entry sample_clock roll_1_retaken
              (U_insert 1 amy) []) as (Hdb & Hstack & _).
  - vm_compute. reflexivity.
  - right. vm_compute. reflexivity.
  - split; [vm_compute; reflexivity|]. split; [|exact Hstack].
    unfold table. by rewrite Hdb.
Defined.

Lemma undo_write_table_ext clk clk' e a b :
  students (db a) = students (db b) →
  match undo_write clk e a, undo_write clk' e b with
  | inr a1, inr b1 => students (db a1) = students (db b1)
  | inl _, inl _ => True
  | _, _ => False
  end.
Proof.
  intros H. destruct e as [r|sid old|i s]; unfold undo_write; simpl.
  - by rewrite H.
  - unfold Sql.update_student. rewrite H.
    destruct (students (db b) !! old_id old); [|simpl; by rewrite ?H].
    destruct (Sql.roll_taken _ _); simpl; done.
  - unfold Sql.insert_student_with_id. rewrite H.
    case_bool_decide; [done|]. destruct (Sql.roll_taken _ _); simpl; done.
Qed.

Lemma undo_action_table_ext clk clk' a b :
  students (db a) = students (db b) → undo_stack a = undo_stack b →
  table (undo_action clk a).1 = table (undo_action clk' b).1.
Proof.
  intros Hdb Hst. unfold undo_action. rewrite <- Hst.
  destruct (undo_stack a) as [|e rest]; [done|].
  pose proof (undo_write_table_ext clk clk' e (set_undo_stack rest a)
                (set_undo_stack rest b) Hdb) as Hw.
  destruct (undo_write clk e (set_undo_stack rest a)) as [x|a1];
    destruct (undo_write clk' e (set_undo_stack rest b)) as [y|b1]; try done.
  pose proof (load_page_students (current_page a1) a1) as Ha.
  pose proof (load_page_students (current_page b1) b1) as Hb.
  destruct (load_page (current_page a1) a1) as [a2 [x|]];
    destruct (load_page (current_page b1) b1) as [b2 [y|]];
    simpl in *; unfold table; congruence.
Qed.

Lemma build_main_ui_frame clk a :
  students (db (build_main_ui clk a)) = students (db a) ∧
  undo_stack (build_main_ui clk a) = undo_stack a ∧
  redo_stack (build_main_ui clk a) = redo_stack a.
Proof.
  unfold build_main_ui.
  pose proof (load_page_students 0 (set_search_text "" a)) as Hs.
  pose proof (load_page_undo_stack 0 (set_search_text "" a)) as Hu.
  pose proof (load_page_redo_stack 0 (set_search_text "" a)) as Hr.
  destruct (load_page 0 (set_search_text "" a)) as [a1 [e|]]; simpl in *; done.
Qed.

(** X10.  The undo and redo stacks belong to the application, not to the
    session: they outlive a logout and the next login.  Undo looks at no
    role, so a Guest, whom Delete turns away, undoes what the user before
    wrote; undoing that user's Add deletes the row. *)
Theorem guest_undoes_what_others_wrote clk1 clk2 clk3 a :
  let g := login_as_guest clk2 (logout clk1 true a) in
  current_role g = Some "Guest" ∧
  table g = table a ∧
  undo_stack g = undo_stack a ∧
  redo_stack g = redo_stack a ∧
  (∀ sel confirm, (delete_student clk3 sel confirm g).1 = g) ∧
  table (undo_action clk3 g).1 = table (undo_action clk3 a).1 ∧
  (∀ r rest, undo_stack a = U_delete r :: rest →
     table (undo_action clk3 g).1 = filter (fun kv => roll kv.2 ≠ r) (table a)).
Proof.
  intros g.
  assert (Hrole : current_role g = Some "Guest").
  { subst g. unfold login_as_guest.
    by destruct (build_main_ui_session clk2
      (audit clk2 a_login (d_text "guest login")
         (set_session (Some "guest") (Some "Guest") (logout clk1 true a)))) as [_ ->]. }
  assert (Hframe : students (db g) = students (db a) ∧ undo_stack g = undo_stack a ∧
                   redo_stack g = redo_stack a).
  { subst g. unfold login_as_guest.
    destruct (build_main_ui_frame clk2
      (audit clk2 a_login (d_text "guest login")
         (set_session (Some "guest") (Some "Guest") (logout clk1 true a))))
      as (-> & -> & ->). done. }
  destruct Hframe as (Hs & Hu & Hr).
  assert (Hundo : table (undo_action clk3 g).1 = table (undo_action clk3 a).1)
    by by apply undo_action_table_ext.
  split; [done|]. split; [done|]. split; [done|]. split; [done|].
  split; [|split; [done|]].
  - intros sel confirm. unfold delete_student. rewrite Hrole.
    by destruct sel.
  - intros r rest Htop. rewrite Hundo. by eapply undo_delete_table.
Qed.

Lemma guest_undoes_what_others_wrote_witness :
  let g := login_as_guest sample_clock (logout sample_clock true bea_added) in
  table g !! 2 = Some (mkStudent "Bea" "2" "CS" 80 "2024-05-01 09:00:00") ∧
  table (undo_action sample_clock g).1 !! 2 = None.
Proof.
  split; [vm_compute; reflexivity|].
  destruct (guest_undoes_what_others_wrote sample_clock sample_clock sample_clock
              bea_added) as (_ & _ & _ & _ & _ & _ & Hdel).
  rewrite (Hdel "2" []) by (vm_compute; reflexivity).
  vm_compute. reflexivity.
Defined.

(** ** Validation *)

Lemma within_rules_any_time n r c mk t t' :
  within_rules (mkStudent n r c mk t) → within_rules (mkStudent n r c mk t').
Proof. done. Qed.

(** X11.  Add and Update write only rows that are within the rules of the
    form.  If every row of the table has a non-empty name of letters,
    spaces, points and hyphens, a roll of 1 to 12 digits, a non-empty course
    and marks from 0 to 100, so has every row after an Add or an Update; a
    form that breaks a rule, or whose marks make [int] raise, changes
    nothing. *)
Theorem add_and_update_keep_rows_valid clk sel f a :
  map_Forall (fun _ s => within_rules s) (table a) →
  map_Forall (fun _ s => within_rules s) (table (add_student clk f a).1) ∧
  map_Forall (fun _ s => within_rules s) (table (update_student clk sel f a).1) ∧
  (validate_form f ≠ Some true →
     (add_student clk f a).1 = a ∧ (update_student clk sel f a).1 = a).
Proof.
  intros Hall. split; [|split].
  - unfold add_student. destruct (validate_form f) as [[]|] eqn:Hv; simpl; [|done..].
    unfold Sql.insert_student.
    destruct (Sql.roll_taken _ (students (db a))); simpl; [done|].
    unfold table. rewrite reload_and_report_db. simpl.
    apply map_Forall_insert_2; [|done].
    apply (validate_form_valid clk f Hv).
  - unfold update_student. destruct sel as [row|]; [|done].
    destruct (validate_form f) as [[]|] eqn:Hv; simpl; [|done..].
    unfold Sql.update_student.
    destruct (students (db a) !! row_id row) as [old|] eqn:Hrow; simpl.
    + destruct (Sql.roll_taken _ _); simpl; [done|].
      unfold table. rewrite reload_and_report_db. simpl.
      apply map_Forall_insert_2; [|done].
      apply (within_rules_any_time _ _ _ _ (current_timestamp clk)).
      apply (validate_form_valid clk f Hv).
    + unfold table. rewrite reload_and_report_db. done.
  - intros Hv. unfold add_student, update_student.
    destruct (validate_form f) as [[]|]; [done| |]; by destruct sel.
Qed.

Lemma add_and_update_keep_rows_valid_witness :
  map_Forall (fun _ s => within_rules s) (table bea_added).
Proof.
  apply (add_and_update_keep_rows_valid sample_clock None
           (mkForm "Bea" "2" "CS" "80") amy_app).
  rewrite amy_app_table. apply map_Forall_singleton.
  unfold within_rules, amy, codes, letter_code, digit_code. simpl.
  split_and!; try done; try lia;
    repeat (apply Forall_cons; split; [unfold Text.code; simpl; lia|]);
    by apply Forall_nil.
Defined.

(** ** Login and the default accounts *)

(** X12.  Login accepts exactly the stored pairs: with the white space
    around the two entries removed, it sets the session to the user and the
    stored role if and only if neither entry is empty and the users table
    holds that username with that very password.  In every other case the
    state is left as it is and a box is shown.  The student table is never
    touched. *)
Theorem handle_login_accepts_exactly_stored_pairs clk user pass a :
  let u := Text.strip user in
  let p := Text.strip pass in
  let res := handle_login clk user pass a in
  (∀ r, logs_in_as u r res ↔
        Text.nonempty u = true ∧ Text.nonempty p = true ∧
        users (db a) !! u = Some (p, r)) ∧
  ((∀ r, ¬ (Text.nonempty u = true ∧ Text.nonempty p = true ∧
            users (db a) !! u = Some (p, r))) →
     res.1 = a ∧ res.2 ≠ []) ∧
  table res.1 = table a.
Proof.
  intros u p res. subst res. unfold handle_login. fold u p.
  destruct (Text.nonempty u) eqn:Hu; simpl.
  2: { split; [|done]. intros r. unfold logs_in_as. simpl. split; [|by intros [? _]].
       by intros (_ & _ & ?). }
  destruct (Text.nonempty p) eqn:Hp; simpl.
  2: { split; [|done]. intros r. unfold logs_in_as. simpl. split; [|by intros (_ & ? & _)].
       by intros (_ & _ & ?). }
  unfold Sql.select_role.
  destruct (users (db a) !! u) as [[p' r']|] eqn:Hst.
  2: { split; [|done]. intros r. unfold logs_in_as. simpl.
       split; [by intros (_ & _ & ?) | by intros (_ & _ & ?)]. }
  case_bool_decide as Hpw; simpl.
  - subst p'.
    destruct (build_main_ui_session clk
      (audit clk a_login (d_text "successful login")
         (set_session (Some u) (Some r') a))) as [Hcu Hcr].
    destruct (build_main_ui_frame clk
      (audit clk a_login (d_text "successful login")
         (set_session (Some u) (Some r') a))) as (Hs & _).
    split; [|split].
    + intros r. unfold logs_in_as. simpl. rewrite Hcu, Hcr. simpl. split.
      * intros (_ & [= ->] & _). done.
      * intros (_ & _ & [= ->]). done.
    + intros Hno. exfalso. by apply (Hno r').
    + exact Hs.
  - split; [|done]. intros r. unfold logs_in_as. simpl.
    split; [by intros (_ & _ & ?)|]. intros (_ & _ & [= ? ?]). done.
Qed.

(** X13.  [init_db] seeds the two default accounts into an empty users
    table and into no other: a users table that holds an account is left as
    it is, the students and the audit log are never touched, and running it
    again changes nothing.  On a seeded database admin/admin logs in as
    Admin and teacher/teacher as Teacher. *)
Theorem init_db_seeds_default_accounts_once d :
  students (init_db d) = students d ∧
  audit_log (init_db d) = audit_log d ∧
  (users d ≠ ∅ → init_db d = d) ∧
  (users d = ∅ →
     users (init_db d)
       = {[ "admin" := ("admin", "Admin"); "teacher" := ("teacher", "Teacher") ]} ∧
     ∀ clk,
       logs_in_as "admin" "Admin"
         (handle_login clk "admin" "admin" (new_app (init_db d))) ∧
       logs_in_as "teacher" "Teacher"
         (handle_login clk "teacher" "teacher" (new_app (init_db d)))) ∧
  init_db (init_db d) = init_db d.
Proof.
  unfold init_db.
  destruct (decide (users d = ∅)) as [He|Hne].
  - rewrite bool_decide_true by (by rewrite He).
    simpl. split; [done|]. split; [done|]. split; [done|]. split.
    + intros _. rewrite He. split.
      * vm_compute. reflexivity.
      * intros clk. split.
        -- apply (handle_login_stored clk _ "admin" "admin" "Admin"); done.
        -- apply (handle_login_stored clk _ "teacher" "teacher" "Teacher"); done.
    + rewrite bool_decide_false; [done|].
      rewrite map_size_empty_iff. apply insert_non_empty.
  - rewrite bool_decide_false by (by rewrite map_size_empty_iff).
    split; [done|]. split; [done|]. split; [done|]. split; [done|].
    rewrite bool_decide_false by (by rewrite map_size_empty_iff). done.
Qed.

Lemma init_db_seeds_default_accounts_once_witness :
  logs_in_as "teacher" "Teacher"
    (handle_login sample_clock "teacher" "teacher" (new_app (init_db empty_db))).
Proof.
  destruct (init_db_seeds_default_accounts_once empty_db) as (_ & _ & _ & Hseed & _).
  destruct Hseed as [_ Hlogin]; [reflexivity|].
  apply (Hlogin sample_clock).
Defined.

(** ** Search *)

Ltac each_ascii c := destruct c as [[] [] [] [] [] [] [] []].

Lemma percent_char c : (Text.code c =? 37)%N = true → c = "%"%char.
Proof. each_ascii c; vm_compute; first [reflexivity | discriminate]. Qed.

Lemma lower_lower c : Text.lower (Text.lower c) = Text.lower c.
Proof. each_ascii c; vm_compute; reflexivity. Qed.

Lemma lower_percent c : (Text.code (Text.lower c) =? 37)%N = (Text.code c =? 37)%N.
Proof. each_ascii c; vm_compute; reflexivity. Qed.

Lemma lower_underscore c : (Text.code (Text.lower c) =? 95)%N = (Text.code c =? 95)%N.
Proof. each_ascii c; vm_compute; reflexivity. Qed.

Lemma like_percent pat text :
  Text.like (String "%" pat) text
  = Text.like pat text ||
    match text with
    | EmptyString => false
    | String _ text' => Text.like (String "%" pat) text'
    end.
Proof. by destruct text. Qed.

Lemma like_other p pat text :
  (Text.code p =? 37)%N = false →
  Text.like (String p pat) text
  = match text with
    | EmptyString => false
    | String t text' =>
        ((Text.code p =? 95)%N || (Text.code (Text.lower p) =? Text.code (Text.lower t))%N)
        && Text.like pat text'
    end.
Proof. intros H. simpl. by rewrite H. Qed.

Lemma like_self s : Text.like s s = true.
Proof.
  induction s as [|c s IH]; [done|].
  destruct (Text.code c =? 37)%N eqn:Hc.
  - apply percent_char in Hc as ->.
    rewrite like_percent, like_percent, IH. by rewrite !orb_true_r.
  - rewrite like_other by done. by rewrite N.eqb_refl, orb_true_r, IH.
Qed.

Lemma like_percent_pre pat pre text :
  Text.like pat text = true → Text.like (String "%" pat) (pre +:+ text) = true.
Proof.
  intros H. induction pre as [|c pre IH].
  - change ("" +:+ text) with text. by rewrite like_percent, H.
  - change (String c pre +:+ text) with (String c (pre +:+ text)).
    rewrite like_percent. by rewrite IH, orb_true_r.
Qed.

Lemma like_only_percent text : Text.like "%" text = true.
Proof.
  induction text as [|c text IH]; [done|].
  rewrite like_percent. by rewrite IH, orb_true_r.
Qed.

Lemma like_app_percent pat text post :
  Text.like pat text = true → Text.like (pat +:+ "%") (text +:+ post) = true.
Proof.
  revert text. induction pat as [|p pat IH]; intros text H.
  - destruct text; [|done]. apply like_only_percent.
  - change (String p pat +:+ "%") with (String p (pat +:+ "%")).
    destruct (Text.code p =? 37)%N eqn:Hp.
    + apply percent_char in Hp as ->.
      induction text as [|t text IHt].
      * rewrite like_percent in H. rewrite orb_false_r in H.
        rewrite like_percent. by rewrite (IH "" H).
      * rewrite like_percent in H. apply orb_prop in H as [H|H].
        -- rewrite like_percent. by rewrite (IH _ H).
        -- change (String t text +:+ post) with (String t (text +:+ post)).
           rewrite like_percent. by rewrite (IHt H), orb_true_r.
    + rewrite like_other in H by done. rewrite like_other by done.
      destruct text as [|t text]; [done|].
      change (String t text +:+ post) with (String t (text +:+ post)).
      apply andb_prop in H as [H1 H2]. by rewrite H1, (IH _ H2).
Qed.

Lemma lower_string_app a b :
  lower_string (a +:+ b) = lower_string a +:+ lower_string b.
Proof. induction a as [|c a IH]; simpl; [done|]. by rewrite IH. Qed.

Lemma like_lower pat text :
  Text.like (lower_string pat) (lower_string text) = Text.like pat text.
Proof.
  revert text. induction pat as [|p pat IH]; intros text.
  - by destruct text.
  - simpl lower_string. destruct (Text.code p =? 37)%N eqn:Hp.
    + apply percent_char in Hp as ->. change (Text.lower "%") with "%"%char.
      induction text as [|t text IHt].
      * change (lower_string "") with "". rewrite !like_percent.
        f_equal. exact (IH "").
      * change (lower_string (String t text))
          with (String (Text.lower t) (lower_string text)).
        rewrite (like_percent pat), (like_percent (lower_string pat)), IHt.
        f_equal. exact (IH (String t text)).
    + rewrite (like_other p) by done.
      rewrite like_other by (by rewrite lower_percent).
      destruct text as [|t text]; [done|].
      change (lower_string (String t text))
        with (String (Text.lower t) (lower_string text)).
      by rewrite lower_underscore, !lower_lower, IH.
Qed.

Lemma like_contains s field :
  contains (lower_string field) (lower_string s) →
  Text.like ("%" +:+ s +:+ "%") field = true.
Proof.
  intros (pre & post & Hc).
  rewrite <- like_lower, !lower_string_app, Hc.
  change (lower_string "%") with "%".
  change ("%" +:+ lower_string s +:+ "%") with (String "%" (lower_string s +:+ "%")).
  apply like_percent_pre, like_app_percent, like_self.
Qed.

Lemma like_all_percent pat text :
  Text.nonempty pat = true →
  Text.all_chars (fun c => (Text.code c =? 37)%N) pat = true →
  Text.like pat text = true.
Proof.
  induction pat as [|p pat IH]; [done|]. intros _ H. simpl in H.
  apply andb_prop in H as [Hp H]. apply percent_char in Hp as ->.
  destruct pat as [|q pat]; [apply like_only_percent|].
  rewrite like_percent. by rewrite IH.
Qed.

(** X14.  The search box filters by a LIKE pattern built around its
    stripped text.  A blank box shows every row.  A row is shown whenever
    its roll, its name or its course contains the text, letter case aside.
    The text is not escaped: a text of percent signs alone shows every
    row. *)
Theorem search_shows_rows_containing_the_text search kv :
  let s := Text.strip search in
  (s = "" → matches search kv = true) ∧
  (contains (lower_string (roll kv.2)) (lower_string s) ∨
   contains (lower_string (name kv.2)) (lower_string s) ∨
   contains (lower_string (course kv.2)) (lower_string s) →
   matches search kv = true) ∧
  (Text.all_chars (fun c => (Text.code c =? 37)%N) s = true →
   matches search kv = true).
Proof.
  intros s. unfold matches. fold s. split; [by intros ->|]. split.
  - intros H. destruct (Text.nonempty s); [|done].
    destruct H as [H|[H|H]]; apply like_contains in H; rewrite H;
      by rewrite ?orb_true_r.
  - intros H. destruct (Text.nonempty s) eqn:Hs; [|done].
    rewrite (like_all_percent ("%" +:+ s +:+ "%") (roll kv.2)); [done|done|].
    simpl. clear Hs. induction s as [|c s IH]; [done|].
    simpl in *. apply andb_prop in H as [-> H]. by apply IH.
Qed.

(** ** Pages *)

Lemma limit_offset_pos {A} ps off (l : list A) :
  0 < ps → Sql.limit_offset ps off l = take (Z.to_nat ps) (drop (Z.to_nat off) l).
Proof. intros H. unfold Sql.limit_offset. case_match; [lia | done]. Qed.

Lemma concat_pages a n :
  0 < page_size a →
  concat (pages a n)
  = take (n * Z.to_nat (page_size a)) (sorted_rows (search_text a) (table a)).
Proof.
  intros Hps. unfold pages. induction n as [|n IH]; [done|].
  rewrite seq_S, fmap_app, concat_app, IH. simpl.
  unfold fetch_page. rewrite app_nil_r, limit_offset_pos by done.
  replace (Z.to_nat (Z.max 0 (Z.of_nat n) * page_size a))
    with (n * Z.to_nat (page_size a))%nat by lia.
  rewrite take_take_drop. f_equal. lia.
Qed.

Lemma sorted_rows_length search m :
  Z.of_nat (length (sorted_rows search m)) = count_matching search m.
Proof. unfold count_matching. by rewrite sorted_rows_perm. Qed.

Lemma total_pages_cover total ps :
  0 ≤ total → 0 < ps → total ≤ total_pages total ps * ps.
Proof.
  intros Ht Hps. unfold total_pages.
  pose proof (rounded_up_quotient_is_ceiling total ps Hps) as [_ H]. nia.
Qed.

(** X15.  The page count is exactly enough.  With a page size above zero,
    no page holds more rows than the page size; the pages from the first to
    the last the label counts, put end to end, are the whole ordered result,
    so they show every matching row once; and a page at or beyond the count
    is empty.  [load_page] writes that count into the label before it
    raises. *)
Theorem pages_show_every_row_once a :
  0 < page_size a →
  let n := total_pages (count_matching (search_text a) (table a)) (page_size a) in
  concat (pages a (Z.to_nat n)) = sorted_rows (search_text a) (table a) ∧
  concat (pages a (Z.to_nat n)) ≡ₚ matching_rows (search_text a) (table a) ∧
  NoDup (concat (pages a (Z.to_nat n))) ∧
  (∀ page, (length (fetch_page a page) ≤ Z.to_nat (page_size a))%nat) ∧
  (∀ page, n ≤ page → fetch_page a page = []) ∧
  (∀ page, lbl_page (load_page page a).1 = (Z.max 0 page + 1, n) ∧
           (load_page page a).2 = Some (AttributeError no_statusbar)).
Proof.
  intros Hps n.
  pose proof (sorted_rows_length (search_text a) (table a)) as Hlen.
  assert (Hcover : count_matching (search_text a) (table a) ≤ n * page_size a).
  { apply total_pages_cover; [|done]. unfold count_matching. lia. }
  assert (Hall : concat (pages a (Z.to_nat n)) = sorted_rows (search_text a) (table a)).
  { rewrite concat_pages by done. apply take_ge.
    assert (1 ≤ n) by (unfold n, total_pages; lia). nia. }
  split; [done|]. rewrite Hall. split; [apply sorted_rows_perm|]. split; [|split; [|split]].
  - rewrite sorted_rows_perm. unfold matching_rows.
    apply NoDup_filter, NoDup_map_to_list.
  - intros page. unfold fetch_page. rewrite limit_offset_pos by done.
    rewrite length_take. lia.
  - intros page Hpage. unfold fetch_page. rewrite limit_offset_pos by done.
    rewrite drop_ge; [by rewrite take_nil|]. nia.
  - intros page. split; [apply load_page_label; lia | apply load_page_raises; lia].
Qed.

Lemma pages_show_every_row_once_witness :
  concat (pages five_app 3) = five_by_name.
Proof.
  destruct (pages_show_every_row_once five_app) as (Hall & _);
    [vm_compute; reflexivity|].
  etrans; [exact Hall | vm_compute; reflexivity].
Defined.

(** X16.  [load_page] counts twice.  The label gets the page count of the
    rows that match the search text, but [refresh_status] then overwrites
    [total_rows] with the number of all students, and that is the number
    [next_page] pages by.  With a search text that narrows the list, Next
    goes on to pages beyond the last one of the label.  A negative page
    request is loaded as the first page, and Prev stops there. *)
Theorem next_page_counts_all_students p a :
  page_size a ≠ 0 →
  let a1 := (load_page p a).1 in
  current_page a1 = Z.max 0 p ∧
  lbl_page a1
    = (Z.max 0 p + 1,
       total_pages (count_matching (search_text a) (table a)) (page_size a)) ∧
  total_rows a1 = Sql.count_all (db a) ∧
  next_page a1
    = (if Z.max 0 p + 1 <? total_pages (Sql.count_all (db a)) (page_size a)
       then load_page (Z.max 0 p + 1) a1 else (a1, None)) ∧
  prev_page a1
    = (if 0 <? Z.max 0 p then load_page (Z.max 0 p - 1) a1 else (a1, None)).
Proof.
  intros Hps a1.
  assert (Hcur : current_page a1 = Z.max 0 p).
  { subst a1. unfold load_page. unfold_setters. simpl. by case_match. }
  assert (Htot : total_rows a1 = Sql.count_all (db a)).
  { subst a1. unfold load_page. unfold_setters. simpl. case_match; [lia | done]. }
  assert (Hsz : page_size a1 = page_size a) by apply load_page_page_size.
  split; [done|]. split; [by apply load_page_label|]. split; [done|].
  unfold next_page, prev_page. rewrite Hcur, Htot, Hsz.
  split; [|done]. destruct (Z.eqb_spec (page_size a) 0); [lia | done].
Qed.

Lemma next_page_counts_all_students_witness :
  lbl_page (load_page 0 five_filtered).1 = (1, 1) ∧
  lbl_page (next_page (load_page 0 five_filtered).1).1 = (2, 1).
Proof.
  destruct (next_page_counts_all_students 0 five_filtered) as (_ & Hlbl & _ & Hnext & _);
    [vm_compute; discriminate|].
  split; [rewrite Hlbl; vm_compute; reflexivity|].
  rewrite Hnext. vm_compute. reflexivity.
Defined.

(** ** Import *)

Lemma roll_taken_mono r (m m' : gmap Z Student) :
  m ⊆ m' → Sql.roll_taken r m = true → Sql.roll_taken r m' = true.
Proof.
  rewrite !roll_taken_true. intros Hsub (i & s & Hi & Hr).
  exists i, s. split; [by eapply lookup_weaken | done].
Qed.

Lemma insert_student_grows n r c mk now d d' :
  Sql.insert_student n r c mk now d = inr d' →
  students d ⊆ students d' ∧ size (students d') = S (size (students d)) ∧
  Sql.roll_taken r (students d') = true.
Proof.
  unfold Sql.insert_student. case_match; [done|]. intros [= <-]. simpl.
  pose proof (next_id_fresh d) as Hfresh. split; [by apply insert_subseteq|].
  split; [by apply map_size_insert_None|].
  apply roll_taken_true. eexists _, _. split; [apply lookup_insert_eq | done].
Qed.

(** What one turn of the loop does to the table and to the count. *)
Lemma import_row_cases series_text clk cols i r d k :
  let st' := import_row series_text clk cols i r (d, k) in
  (st' = (d, k) ∨
   (students d ⊆ students st'.1 ∧ size (students st'.1) = S (size (students d)) ∧
    st'.2 = k + 1)) ∧
  ∀ clk' k', import_row series_text clk' cols i r (st'.1, k') = (st'.1, k').
Proof.
  unfold import_row.
  destruct (get cols r "name") as [n|]; simpl; [|by split; [left|]].
  destruct (get cols r "roll") as [rl|]; simpl; [|by split; [left|]].
  destruct (get cols r "course") as [c|]; simpl; [|by split; [left|]].
  destruct (get cols r "marks") as [mk|]; simpl; [|by split; [left|]].
  destruct (int_float mk) as [x|v]; simpl; [by split; [left|]|].
  destruct ((v <? - 2 ^ 63) || (2 ^ 63 <=? v)); simpl; [by split; [left|]|].
  destruct (Sql.insert_student _ _ _ _ _ d) as [x|d'] eqn:E; simpl.
  - split; [by left|]. intros clk' k'.
    unfold Sql.insert_student in *. by destruct (Sql.roll_taken _ (students d)).
  - destruct (insert_student_grows _ _ _ _ _ _ _ E) as (Hsub & Hsize & Htaken).
    split; [right; done|]. intros clk' k'.
    unfold Sql.insert_student. by rewrite Htaken.
Qed.

Lemma settled_mono series_text cols i r d d' :
  students d ⊆ students d' → settled series_text cols i r d →
  settled series_text cols i r d'.
Proof.
  intros Hsub Hs clk k. specialize (Hs clk k). unfold import_row in *.
  destruct (get cols r "name") as [n|]; simpl in *; [|done].
  destruct (get cols r "roll") as [rl|]; simpl in *; [|done].
  destruct (get cols r "course") as [c|]; simpl in *; [|done].
  destruct (get cols r "marks") as [mk|]; simpl in *; [|done].
  destruct (int_float mk) as [x|v]; simpl in *; [done|].
  destruct ((v <? - 2 ^ 63) || (2 ^ 63 <=? v)); simpl in *; [done|].
  unfold Sql.insert_student in *.
  destruct (Sql.roll_taken (value_str series_text "roll" i rl) (students d)) eqn:Ht.
  - by rewrite (roll_taken_mono _ _ _ Hsub Ht).
  - simplify_eq. lia.
Qed.

Lemma import_rows_grows series_text clk cols i rs d k :
  let st' := import_rows series_text clk cols i rs (d, k) in
  students d ⊆ students st'.1 ∧
  Z.of_nat (size (students st'.1)) = Z.of_nat (size (students d)) + (st'.2 - k) ∧
  k ≤ st'.2 ≤ k + Z.of_nat (length rs) ∧
  ∀ j r, rs !! j = Some r → settled series_text cols (i + j) r st'.1.
Proof.
  revert i d k. induction rs as [|r rs IH]; simpl; intros i d k.
  - repeat split; try done; lia.
  - destruct (import_row_cases series_text clk cols i r d k) as [Hcase Hset].
    destruct (import_row series_text clk cols i r (d, k)) as [d1 k1]. simpl in *.
    destruct (IH (S i) d1 k1) as (Hsub & Hsize & Hk & Hall).
    assert (Hsub1 : students d ⊆ students d1)
      by (destruct Hcase as [?|(? & _)]; by simplify_eq).
    split; [by etrans|]. split; [|split].
    + destruct Hcase as [?|(_ & Hs1 & ->)]; simplify_eq; lia.
    + destruct Hcase as [?|(_ & _ & ->)]; simplify_eq; lia.
    + intros [|j] r' Hj; simpl in Hj.
      * injection Hj as <-. rewrite Nat.add_0_r.
        apply (settled_mono series_text cols i r d1); [done|].
        intros clk' k'. apply Hset.
      * replace (i + S j)%nat with (S i + j)%nat by lia. by apply Hall.
Qed.

Lemma import_rows_settled series_text clk cols i rs d k :
  (∀ j r, rs !! j = Some r → settled series_text cols (i + j) r d) →
  import_rows series_text clk cols i rs (d, k) = (d, k).
Proof.
  revert i. induction rs as [|r rs IH]; simpl; intros i Hall; [done|].
  pose proof (Hall 0%nat r eq_refl clk k) as H0.
  rewrite Nat.add_0_r in H0. rewrite H0.
  apply IH. intros j r' Hj.
  replace (S i + j)%nat with (i + S j)%nat by lia. by apply Hall.
Qed.

Lemma import_file_shape series_text clk path df a :
  Text.nonempty path = true →
  has_expected (normalise (columns df)) = true →
  let st := import_rows series_text clk (normalise (columns df)) 0 (records df) (db a, 0) in
  let r := import_file series_text clk path df a in
  students (db r.1) = students st.1 ∧
  undo_stack r.1 = undo_stack a ∧ redo_stack r.1 = redo_stack a ∧
  page_size r.1 = page_size a ∧
  (page_size a ≠ 0 → r.2 = [import_complete st.2; import_reload_failed]).
Proof.
  intros Hp Hc st r. subst st r. unfold import_file. rewrite Hp, Hc. simpl.
  destruct (import_rows _ _ _ _ (records df) (db a, 0)) as [d n]. simpl.
  match goal with |- context [load_page 0 ?x] =>
    pose proof (load_page_students 0 x) as Hs;
    pose proof (load_page_undo_stack 0 x) as Hu;
    pose proof (load_page_redo_stack 0 x) as Hr;
    pose proof (load_page_page_size 0 x) as Hz;
    pose proof (load_page_raises 0 x) as Hex;
    destruct (load_page 0 x) as [a2 [e|]] end;
    simpl in *; repeat split; try done;
    intros Hps; specialize (Hex Hps); by simplify_eq.
Qed.

(** X17.  An import only adds.  Every row that was in the table is still
    there unchanged, the number the first box reports is the number of rows
    the table has gained, at most one per row of the file, and nothing is
    pushed on the undo stack: an import cannot be undone.  The second box
    holds the error of the page reload. *)
Theorem import_reports_what_it_inserted series_text clk path df a :
  let r := import_file series_text clk path df a in
  table a ⊆ table r.1 ∧
  undo_stack r.1 = undo_stack a ∧
  redo_stack r.1 = redo_stack a ∧
  ∃ n, Z.of_nat (size (table r.1)) = Z.of_nat (size (table a)) + n ∧
       0 ≤ n ≤ Z.of_nat (length (records df)) ∧
       (Text.nonempty path = true →
        has_expected (normalise (columns df)) = true →
        page_size a ≠ 0 → r.2 = [import_complete n; import_reload_failed]).
Proof.
  intros r. subst r.
  destruct (Text.nonempty path) eqn:Hp.
  2: { unfold import_file. rewrite Hp. simpl.
       repeat split; try done. exists 0. repeat split; try done; lia. }
  destruct (has_expected (normalise (columns df))) eqn:Hc.
  2: { unfold import_file. rewrite Hp, Hc. simpl.
       repeat split; try done. exists 0. repeat split; try done; lia. }
  destruct (import_file_shape series_text clk path df a Hp Hc)
    as (Hs & Hu & Hre & _ & Hmsg).
  destruct (import_rows_grows series_text clk (normalise (columns df)) 0 (records df)
              (db a) 0) as (Hsub & Hsize & Hn & _).
  simpl in *. unfold table. rewrite Hs.
  split; [done|]. split; [done|]. split; [done|].
  eexists. split; [|split; [|intros _ _; exact Hmsg]]; lia.
Qed.

Lemma import_reports_what_it_inserted_witness :
  table bea_moved ⊆ table cy_imported ∧ undo_stack cy_imported = undo_stack bea_moved ∧
  (import_file no_series sample_clock "cy.csv" cy_file bea_moved).2
    = [import_complete 1; import_reload_failed].
Proof.
  destruct (import_reports_what_it_inserted no_series sample_clock "cy.csv" cy_file
              bea_moved) as (Hsub & Hundo & _).
  split; [exact Hsub|]. split; [exact Hundo|]. vm_compute. reflexivity.
Defined.

Lemma py_lower_ascii c :
  (Text.code (Text.py_lower c) < 128)%N → Text.py_lower c = Text.lower c.
Proof.
  destruct c as [[] [] [] [] [] [] [] []]; intros H;
    first [reflexivity | vm_compute in H; discriminate H].
Qed.

Lemma py_lower_string_ascii s e :
  Text.all_chars (fun c => (Text.code c <? 128)%N) e = true →
  py_lower_string s = e → lower_string s = e.
Proof.
  revert e. induction s as [|c s IH]; intros [|d e]; simpl; try done.
  intros [Hd He]%andb_true_iff [= Hc Hs]. apply N.ltb_lt in Hd.
  rewrite <- Hc in Hd. rewrite <- (py_lower_ascii c Hd), Hc. f_equal. by apply IH.
Qed.

(** X18.  An import with nothing to read writes nothing.  With no file
    chosen the handler returns at once; with a file in which one of name,
    roll, course and marks is no column header (spaces around a header and
    its letter case aside) it shows "Import Error" and leaves the whole
    state, audit log included, as it was. *)
Theorem import_without_required_columns_writes_nothing series_text clk path df a :
  (path = "" → import_file series_text clk path df a = (a, [])) ∧
  (path ≠ "" →
   (∃ e, e ∈ expected ∧ ∀ c, c ∈ columns df → lower_string (Text.strip c) ≠ e) →
   import_file series_text clk path df a = (a, [missing_columns])).
Proof.
  split; [by intros ->|].
  intros Hp (e & He & Hmiss). unfold import_file.
  destruct path as [|c path]; [done|]. simpl.
  assert (Hc : has_expected (normalise (columns df)) = false).
  { unfold has_expected. apply not_true_iff_false. intros Hall.
    rewrite forallb_forall in Hall.
    specialize (Hall e). rewrite <- list_elem_of_In in Hall.
    specialize (Hall He). apply bool_decide_eq_true in Hall.
    unfold normalise in Hall. apply list_elem_of_fmap in Hall as (c' & Heq & Hin).
    apply (Hmiss c' Hin). apply py_lower_string_ascii; [|done].
    unfold expected in He.
    repeat (apply elem_of_cons in He as [->|He]; [reflexivity|]).
    by apply elem_of_nil in He. }
  by rewrite Hc.
Qed.

(** X19.  Importing a file a second time adds nothing.  Each row of the
    file either was written the first time, so that its roll is now taken,
    or was skipped for marks that give no number or for a roll already in
    the table, which is so the second time as well: the second import
    leaves the student table as the first left it, and reports 0 rows. *)
Theorem importing_again_adds_nothing series_text clk1 clk2 path df a :
  let r1 := import_file series_text clk1 path df a in
  let r2 := import_file series_text clk2 path df r1.1 in
  table r2.1 = table r1.1 ∧
  (Text.nonempty path = true →
   has_expected (normalise (columns df)) = true →
   page_size a ≠ 0 → r2.2 = [import_complete 0; import_reload_failed]).
Proof.
  intros r1 r2. subst r1 r2.
  destruct (Text.nonempty path) eqn:Hp.
  2: { unfold import_file. rewrite ?Hp. simpl. by rewrite ?Hp. }
  destruct (has_expected (normalise (columns df))) eqn:Hc.
  2: { unfold import_file. rewrite ?Hp, ?Hc. simpl. by rewrite ?Hp, ?Hc. }
  destruct (import_file_shape series_text clk1 path df a Hp Hc)
    as (Hs & _ & _ & Hz & _).
  destruct (import_rows_grows series_text clk1 (normalise (columns df)) 0 (records df)
              (db a) 0) as (_ & _ & _ & Hall).
  simpl in Hs, Hall.
  set (r1 := import_file series_text clk1 path df a) in *.
  assert (Hrows2 : import_rows series_text clk2 (normalise (columns df)) 0 (records df)
                     (db r1.1, 0) = (db r1.1, 0)).
  { apply import_rows_settled. intros j r Hj.
    eapply settled_mono; [|by apply Hall]. by rewrite Hs. }
  destruct (import_file_shape series_text clk2 path df r1.1 Hp Hc)
    as (Hs2 & _ & _ & _ & Hmsg).
  simpl in Hs2, Hmsg. rewrite Hrows2 in Hs2, Hmsg. simpl in Hs2, Hmsg.
  split; [done|]. intros _ _ Hps. apply Hmsg. by rewrite Hz.
Qed.

Lemma importing_again_adds_nothing_witness :
  table (import_file no_series sample_clock "cy.csv" cy_file cy_imported).1
    = table cy_imported ∧
  (import_file no_series sample_clock "cy.csv" cy_file cy_imported).2
    = [import_complete 0; import_reload_failed].
Proof.
  destruct (importing_again_adds_nothing no_series sample_clock sample_clock "cy.csv"
              cy_file bea_moved) as (Ht & Hmsg).
  split; [exact Ht|]. apply Hmsg; vm_compute; [reflexivity..|discriminate].
Defined.

(** ** The audit tab *)

(** X20.  The audit tab shows the newest entries first and at most 1000
    of them: row [i] of the tab is the entry [i] places before the end of
    the log, and the entry just written by [log_audit] is the top row. *)
Theorem audit_tab_shows_newest_first d :
  (length (load_audit d) ≤ 1000)%nat ∧
  (∀ i e, load_audit d !! i = Some e →
     (i < 1000)%nat ∧ audit_log d !! (length (audit_log d) - S i)%nat = Some e) ∧
  (∀ i, (i < 1000)%nat → (i < length (audit_log d))%nat →
     load_audit d !! i = audit_log d !! (length (audit_log d) - S i)%nat) ∧
  (∀ clk u r act det,
     load_audit (log_audit clk u r act det d) !! 0%nat
     = Some (audit_entry clk u r act det)).
Proof.
  unfold load_audit. split; [rewrite length_take; lia|]. split; [|split].
  - intros i e Hi.
    assert (Hlt : (i < 1000)%nat).
    { apply lookup_lt_Some in Hi. rewrite length_take in Hi. lia. }
    split; [done|]. rewrite lookup_take_lt in Hi by done.
    by apply reverse_lookup_Some in Hi as [? _].
  - intros i Hi Hlen. rewrite lookup_take_lt by done. by apply reverse_lookup.
  - intros clk u r act det. simpl. rewrite reverse_snoc. done.
Qed.

(** ** Reports *)

Lemma enrolled_insert c i s (m : gmap Z Student) :
  m !! i = None →
  enrolled c (<[i := s]> m)
  = ((if decide (course s = c) then 1 else 0) + enrolled c m)%nat.
Proof.
  intros Hi. unfold enrolled. rewrite (map_to_list_insert m i s Hi).
  destruct (decide (course s = c)) as [He|Hne].
  - by rewrite filter_cons_True.
  - by rewrite filter_cons_False.
Qed.

Lemma sum_of_counts_insert c n (cs : gmap string nat) :
  (sum_of_counts (<[c := n]> cs) + default 0 (cs !! c) = n + sum_of_counts cs)%nat.
Proof.
  unfold sum_of_counts. destruct (cs !! c) as [k|] eqn:Hc; simpl default.
  - rewrite <- insert_delete_eq.
    rewrite (map_to_list_insert (delete c cs) c n) by apply lookup_delete_eq.
    rewrite <- (map_to_list_delete cs c k Hc).
    rewrite !fmap_cons. simpl sum_list_with. unfold id. simpl. lia.
  - rewrite (map_to_list_insert cs c n Hc).
    rewrite !fmap_cons. simpl sum_list_with. unfold id. simpl. lia.
Qed.

Lemma course_counts_spec (m : gmap Z Student) :
  (∀ c, default 0%nat (course_counts m !! c) = enrolled c m) ∧
  (∀ c n, course_counts m !! c = Some n → (0 < n)%nat) ∧
  sum_of_counts (course_counts m) = size m.
Proof.
  unfold course_counts.
  apply (map_fold_weak_ind
    (fun cs m => (∀ c, default 0%nat (cs !! c) = enrolled c m) ∧
                 (∀ c n, cs !! c = Some n → (0 < n)%nat) ∧
                 sum_of_counts cs = size m)).
  - split; [|split]; done.
  - intros i s m' cs Hi (Hcount & Hpos & Hsum). split; [|split].
    + intros c. rewrite enrolled_insert by done.
      destruct (decide (course s = c)) as [<-|Hne].
      * rewrite lookup_insert_eq. simpl. by rewrite Hcount.
      * rewrite lookup_insert_ne by done. by rewrite Hcount.
    + intros c n Hc. apply lookup_insert_Some in Hc as [[_ <-]|[_ Hc]]; [lia|].
      by eapply Hpos.
    + pose proof (sum_of_counts_insert (course s)
                    (S (default 0%nat (cs !! course s))) cs) as H.
      rewrite map_size_insert_None by done. lia.
Qed.

(** X21.  The figures of the course chart add up.  The count shown for a
    course is the number of students enrolled in it, a course appears
    exactly when some student is enrolled in it, the counts sum to the
    number of students, and the histogram gets one mark per student.  The
    only thing [refresh_charts] writes is its audit entry. *)
Theorem course_chart_counts_every_student clk a :
  let out := refresh_charts clk a in
  let counts := out.2.1 in
  (∀ c, default 0%nat (counts !! c) = enrolled c (table a)) ∧
  (∀ c, is_Some (counts !! c) ↔ ∃ i s, table a !! i = Some s ∧ course s = c) ∧
  sum_of_counts counts = size (table a) ∧
  length out.2.2 = size (table a) ∧
  table out.1 = table a ∧
  audit_log (db out.1)
    = (audit_log (db a)
       ++ [audit_entry clk (current_user a) (current_role a) a_refresh_charts
             (d_text "")])%list.
Proof.
  intros out counts. subst out counts. simpl.
  destruct (course_counts_spec (table a)) as (Hcount & Hpos & Hsum).
  split; [done|]. split; [|split; [done|split; [|done]]].
  - intros c. specialize (Hcount c). split.
    + intros [n Hn]. rewrite Hn in Hcount. simpl in Hcount.
      apply Hpos in Hn. unfold enrolled in Hcount.
      destruct (filter _ (map_to_list (table a))) as [|[i s] l] eqn:Hf;
        [simpl in Hcount; lia|].
      assert (Hin : (i, s) ∈ filter (fun kv => course kv.2 = c) (map_to_list (table a)))
        by (rewrite Hf; left).
      apply list_elem_of_filter in Hin as [Hc Hin].
      exists i, s. split; [by apply elem_of_map_to_list | done].
    + intros (i & s & Hi & Hc).
      assert (Hin : (i, s) ∈ filter (fun kv => course kv.2 = c) (map_to_list (table a))).
      { apply list_elem_of_filter. split; [done | by apply elem_of_map_to_list]. }
      destruct (course_counts (table a) !! c) as [n|]; [by eexists|].
      simpl in Hcount. unfold enrolled in Hcount.
      destruct (filter _ (map_to_list (table a))); [by apply elem_of_nil in Hin|done].
  - unfold marks_list. by rewrite length_fmap, rows_by_id_perm, length_map_to_list.
Qed.

(** ** Backup and restore *)

Lemma backup_path_is_not_the_database stamp :
  timestamped_backup_path stamp ≠ DB_FILE ∧
  Text.nonempty (timestamped_backup_path stamp) = true.
Proof. split; [discriminate | done]. Qed.

(** X22.  A backup holds the database as it was before the backup was
    logged, and a restore from it brings that database back: the students,
    the users and the AUTOINCREMENT counter are those of the moment of the
    backup.  The audit log is replaced with them: it is the log of that
    moment followed by the entry of the restore, so whatever was logged in
    between, the backup's own entry included, is gone.  The restart that
    follows begins with no session and empty undo and redo stacks.  A
    restore from a path that names no file changes nothing. *)
Theorem restore_brings_back_the_backup clk1 clk2 stamp a fs a' fs' :
  let path := timestamped_backup_path stamp in
  let b := backup_db clk1 stamp a fs in
  b.1.2 !! path = Some (db a) ∧
  (∀ p, p ≠ path → b.1.2 !! p = fs !! p) ∧
  table b.1.1 = table a ∧
  (fs' !! path = Some (db a) →
     let r := restore_db clk2 path true a' fs' in
     r.2 = true ∧
     students (db r.1.1) = students (db a) ∧
     users (db r.1.1) = users (db a) ∧
     sqlite_sequence (db r.1.1) = sqlite_sequence (db a) ∧
     audit_log (db r.1.1)
       = (audit_log (db a)
          ++ [audit_entry clk2 (current_user a') (current_role a') a_restore
                (d_text path)])%list ∧
     table (restart r.1.1) = table a ∧
     undo_stack (restart r.1.1) = [] ∧
     redo_stack (restart r.1.1) = [] ∧
     current_role (restart r.1.1) = None) ∧
  (fs' !! path = None →
     (restore_db clk2 path true a' fs').1.1 = a' ∧
     (restore_db clk2 path true a' fs').2 = false).
Proof.
  intros path b. subst b. unfold backup_db.
  destruct (backup_path_is_not_the_database stamp) as [Hne Hnonempty].
  fold path in Hne, Hnonempty.
  cbn [fst snd].
  split; [apply lookup_insert_eq|]. split; [intros p Hp; by apply lookup_insert_ne|].
  split; [done|].
  unfold restore_db. rewrite Hnonempty.
  rewrite (bool_decide_false _ Hne). cbn [negb].
  split.
  - intros ->. simpl. repeat split; try done.
    unfold restart, init_db, table. simpl. by case_bool_decide.
  - intros ->. done.
Qed.

Lemma restore_brings_back_the_backup_witness :
  let b := backup_db sample_clock "20240501_090000" amy_app ∅ in
  table (restart (restore_db sample_clock "backup_20240501_090000.db" true
                    amy_deleted b.1.2).1.1)
  = table amy_app.
Proof.
  destruct (restore_brings_back_the_backup sample_clock sample_clock "20240501_090000"
              amy_app ∅ amy_deleted
              (backup_db sample_clock "20240501_090000" amy_app ∅).1.2)
    as (Hfile & _ & _ & Hrestore & _).
  destruct (Hrestore Hfile) as (_ & _ & _ & _ & _ & Htable & _).
  exact Htable.
Defined.

(** ** A page size of zero *)

(** X23.  A zero in the page-size entry is refused by Apply but stays in
    the entry, and from then on every reload of the page raises
    ZeroDivisionError.  A valid Add still writes its row and pushes its undo
    entry, since the reload comes after the commit, but what the user is
    told is the text of the division error, not "Student added
    successfully". *)
Theorem zero_page_size_hides_a_successful_add clk f a :
  page_size a = 0 →
  apply_page_size a = (a, [showerror "Page Size Error" "Page size > 0"]) ∧
  (∀ p, (load_page p a).2 = Some (ZeroDivisionError division_by_zero)) ∧
  (validate_form f = Some true →
   Sql.roll_taken (Text.strip (m_roll f)) (table a) = false →
   table (add_student clk f a).1
     = <[Sql.next_id (db a) := student_of_form clk f]> (table a) ∧
   undo_stack (add_student clk f a).1
     = U_delete (Text.strip (m_roll f)) :: undo_stack a ∧
   (add_student clk f a).2 = [showerror "Error" division_by_zero]).
Proof.
  intros Hps. split; [|split].
  - unfold apply_page_size. by rewrite Hps.
  - intros p. unfold load_page. unfold_setters. simpl. by rewrite Hps.
  - intros Hv Hf.
    destruct (add_student_fresh clk f a Hv Hf) as (Ht & Hu & _).
    split; [done|]. split; [done|].
    unfold add_student, Sql.insert_student. rewrite Hv. simpl.
    unfold table in Hf. rewrite Hf.
    rewrite reload_and_report_msgs_eq. unfold_setters. simpl. by rewrite Hps.
Qed.

Lemma zero_page_size_hides_a_successful_add_witness :
  let a := set_page_size 0 amy_app in
  table (add_student sample_clock (mkForm "Bea" "2" "CS" "80") a).1 !! 2
    = Some (mkStudent "Bea" "2" "CS" 80 "2024-05-01 09:00:00") ∧
  (add_student sample_clock (mkForm "Bea" "2" "CS" "80") a).2
    = [showerror "Error" division_by_zero].
Proof.
  destruct (zero_page_size_hides_a_successful_add sample_clock
              (mkForm "Bea" "2" "CS" "80") (set_page_size 0 amy_app))
    as (_ & _ & Hadd); [reflexivity|].
  destruct Hadd as (Ht & _ & Hmsg); [vm_compute; reflexivity | vm_compute; reflexivity|].
  split; [|exact Hmsg].
  rewrite Ht. vm_compute. reflexivity.
Defined.

(** ** The page reload after a write *)


